(** * Verification of the EPUB merging engine ([combineEpubs])

    A shallow embedding of [epubCombiner.js] (the single exported function
    [combineEpubs]) together with the properties that its design document
    states about it.

    Conventions of the embedding:
    - a JavaScript string is a [string]; string concatenation is [+:+];
    - [undefined]/[null] is [None] of an [option];
    - a thrown exception (or rejected promise) is [Err], see [Result];
    - the external libraries (JSZip reading, xml2js parsing and building,
      uuid) are parameters of the [Combiner] section;
    - the [for] loops that [push] on the shared arrays are folds that thread
      the arrays. *)

From Stdlib Require Import ZArith Ascii String.
From stdpp Require Import base tactics option list strings gmap pretty.

Local Open Scope string_scope.
Local Open Scope nat_scope.
Local Open Scope list_scope.
Set Warnings "-register-all".

(** ** Exceptions *)

(** What the function can throw.  [TypeError] is raised by the engine itself
    on a member access or method call on [undefined]/[null]; [LibraryError]
    carries the [name] of an error object thrown by JSZip or xml2js;
    [Unmodelled] marks a regular expression outside the fragment of
    [RegExp_new] (never raised, see [RegExp_new_escapeRegExp]). *)
Inductive JsError : Type :=
  | TypeError
  | LibraryError (name : string)
  | Unmodelled.

(** The [name] property of the thrown error object. *)
Definition error_name (e : JsError) : string :=
  match e with
  | TypeError => "TypeError"
  | LibraryError n => n
  | Unmodelled => "Unmodelled"
  end.

Inductive Result (A : Type) : Type :=
  | Ok (a : A)
  | Err (e : JsError).
Arguments Ok {A} a.
Arguments Err {A} e.

(** Sequencing: an exception of the first computation ends the second. *)
Definition bind {A B : Type} (r : Result A) (f : A → Result B) : Result B :=
  match r with
  | Ok a => f a
  | Err e => Err e
  end.

Declare Scope result_scope.
Delimit Scope result_scope with result.
Notation "x ← y ; z" := (bind y (λ x, z))
  (at level 20, y at level 100, z at level 200, only parsing) : result_scope.
Notation "' x ← y ; z" := (bind y (λ x, z))
  (at level 20, x pattern, y at level 100, z at level 200, only parsing) : result_scope.
Notation "r >>= f" := (bind r f) (at level 50, left associativity, only parsing) : result_scope.
Local Open Scope result_scope.

(** [x.member] for a possibly undefined [x]: a [TypeError] on [undefined]. *)
Definition defined {A} (o : option A) : Result A :=
  match o with
  | Some a => Ok a
  | None => Err TypeError
  end.

(** [for (const x of l) { s = f(s, x) }] with exceptions. *)
Fixpoint for_of {A St : Type} (f : St → A → Result St) (l : list A) (s : St) : Result St :=
  match l with
  | [] => Ok s
  | x :: l' => s' ← f s x; for_of f l' s'
  end.

(** [for (let i = 0; i < l.length; i++) { s = f(s, i, l[i]) }], started
    at index [i]. *)
Fixpoint for_index {A St : Type} (f : St → nat → A → Result St) (i : nat) (l : list A)
    (s : St) : Result St :=
  match l with
  | [] => Ok s
  | x :: l' => s' ← f s i x; for_index f (S i) l' s'
  end.

(** [for (const x of l) { x.field = f(x) }] with exceptions. *)
Fixpoint for_each {A : Type} (f : A → Result A) (l : list A) : Result (list A) :=
  match l with
  | [] => Ok []
  | x :: l' => y ← f x; l'' ← for_each f l'; Ok (y :: l'')
  end.

(** ** JavaScript strings *)

Module JsString.

(** The string used for [undefined] by [+] and by template literals. *)
Definition to_string (o : option string) : string := default "undefined" o.

Fixpoint drop (n : nat) (s : string) : string :=
  match n, s with
  | 0, _ => s
  | S n', String _ s' => drop n' s'
  | S _, "" => ""
  end.

Fixpoint take (n : nat) (s : string) : string :=
  match n, s with
  | 0, _ => ""
  | S n', String c s' => String c (take n' s')
  | S _, "" => ""
  end.

(** [s.startsWith(p)] *)
Definition startsWith (p s : string) : bool := String.prefix p s.

Fixpoint lastIndexOf_go (c : ascii) (s : string) (i last : Z) : Z :=
  match s with
  | "" => last
  | String d s' =>
      lastIndexOf_go c s' (i + 1) (if decide (d = c) then i else last)
  end.

(** [s.lastIndexOf(c)] for a one-character [c]: [-1] when [c] is absent. *)
Definition lastIndexOf (c : ascii) (s : string) : Z := lastIndexOf_go c s 0 (-1).

Definition clamp (n : Z) (s : string) : nat :=
  Z.to_nat (Z.min (Z.max n 0) (Z.of_nat (String.length s))).

(** [s.substring(a, b)]: both ends are clamped to [0 .. s.length] and
    swapped when [a > b]. *)
Definition substring (a b : Z) (s : string) : string :=
  let a' := clamp a s in
  let b' := clamp b s in
  take (Nat.max a' b' - Nat.min a' b') (drop (Nat.min a' b') s).

(** [s.substring(a)] *)
Definition substring_from (a : Z) (s : string) : string :=
  substring a (Z.of_nat (String.length s)) s.

(** [s.replace(pat, '')] for a string [pat]: only the first occurrence is
    replaced.  The engine always passes the empty replacement. *)
Fixpoint replace_first (pat rep : string) (s : string) : string :=
  if startsWith pat s then rep +:+ drop (String.length pat) s
  else match s with
       | "" => ""
       | String c s' => String c (replace_first pat rep s')
       end.

(** [s] contains [pat] as a substring. *)
Definition occurs (pat s : string) : Prop := ∃ u v, s = u +:+ pat +:+ v.

(** [c] is one of the characters of [s]. *)
Fixpoint mem (c : ascii) (s : string) : bool :=
  match s with
  | "" => false
  | String d s' => if decide (d = c) then true else mem c s'
  end.

(** [s.includes(pat)] *)
Fixpoint includes (pat s : string) : bool :=
  if startsWith pat s then true
  else match s with
       | "" => false
       | String _ s' => includes pat s'
       end.

(** Characters of a decimal numeral. *)
Definition digit (c : ascii) : bool :=
  bool_decide (c ∈ [ "0"; "1"; "2"; "3"; "4"; "5"; "6"; "7"; "8"; "9" ]%char).

Fixpoint digits (s : string) : bool :=
  match s with
  | "" => true
  | String c s' => digit c && digits s'
  end.

End JsString.

(** ** Regular expressions: the literal fragment *)

Module JsRegExp.
Import JsString.

(** The characters matched by the class [[.*+?^${}()|[\]\\]]. *)
Definition syntax_char (c : ascii) : bool :=
  bool_decide (c ∈ [ "."; "*"; "+"; "?"; "^"; "$"; "{"; "}"; "("; ")"; "|"; "["; "]"; "\" ]%char).

(** [s.replace(/[.*+?^${}()|[\]\\]/g, '\\$&')]: every syntax character is
    replaced by a backslash followed by itself. *)
Fixpoint escapeRegExp (s : string) : string :=
  match s with
  | "" => ""
  | String c s' =>
      if syntax_char c then String "\" (String c (escapeRegExp s'))
      else String c (escapeRegExp s')
  end.

(** A compiled global regular expression of the fragment: a sequence of
    pattern characters, each of which matches exactly itself. *)
Record RegExp := { literal : string }.

(** [new RegExp(source, 'g')] for a [source] made of ordinary characters
    and of identity escapes [\c] of syntax characters.  Any other source
    is outside the fragment. *)
Fixpoint RegExp_literal (source : string) : option string :=
  match source with
  | "" => Some ""
  | String c rest =>
      if decide (c = "\"%char) then
        match rest with
        | String d rest' =>
            if syntax_char d then String d <$> RegExp_literal rest' else None
        | "" => None
        end
      else if syntax_char c then None
      else String c <$> RegExp_literal rest
  end.

Definition RegExp_new (source : string) : Result RegExp :=
  match RegExp_literal source with
  | Some l => Ok {| literal := l |}
  | None => Err Unmodelled
  end.

(** [GetSubstitution] of the language specification for a match without
    capture groups: [$$] is a dollar sign, [$&] the matched text, [$`] the
    text before the match and [$'] the text after it; any other [$] stands
    for itself. *)
Fixpoint GetSubstitution (matched before after template : string) : string :=
  match template with
  | "" => ""
  | String c t =>
      if decide (c = "$"%char) then
        match t with
        | String d t' =>
            if decide (d = "$"%char) then
              String "$" (GetSubstitution matched before after t')
            else if decide (d = "&"%char) then
              matched +:+ GetSubstitution matched before after t'
            else if decide (d = "`"%char) then
              before +:+ GetSubstitution matched before after t'
            else if decide (d = "'"%char) then
              after +:+ GetSubstitution matched before after t'
            else String "$" (GetSubstitution matched before after t)
        | "" => "$"
        end
      else String c (GetSubstitution matched before after t)
  end.

(** The scan of [RegExp.prototype[Symbol.replace]] with the [g] flag.
    [before] is the text already scanned, [skip] the number of characters
    of the current match still to be consumed.  A match is tried at every
    position that is not inside the previous match; after an empty match
    the scan advances by one character. *)
Fixpoint replace_go (lit template before : string) (skip : nat) (s : string) : string :=
  match s with
  | "" =>
      match skip with
      | 0 => if startsWith lit "" then GetSubstitution lit before "" template else ""
      | S _ => ""
      end
  | String c s' =>
      let before' := before +:+ String c "" in
      match skip with
      | S k => replace_go lit template before' k s'
      | 0 =>
          if startsWith lit s then
            GetSubstitution lit before (drop (String.length lit) s) template +:+
            match String.length lit with
            | 0 => String c (replace_go lit template before' 0 s')
            | S k => replace_go lit template before' k s'
            end
          else String c (replace_go lit template before' 0 s')
      end
  end.

(** [s.replace(re, template)] for a global [re]. *)
Definition replace (re : RegExp) (template s : string) : string :=
  replace_go (literal re) template "" 0 s.

(** [Replaced pat rep s out]: [out] is [s] with the occurrences of [pat]
    replaced by [rep], scanning from the left: each replaced occurrence is
    the leftmost one in what remains of the text. *)
Inductive Replaced (pat rep : string) : string → string → Prop :=
  | Replaced_none s :
      ¬ occurs pat s → Replaced pat rep s s
  | Replaced_hit u v out :
      (∀ u' v', u +:+ pat +:+ v = u' +:+ pat +:+ v' → String.length u ≤ String.length u') →
      Replaced pat rep v out →
      Replaced pat rep (u +:+ pat +:+ v) (u +:+ rep +:+ out).

End JsRegExp.

(** ** Documents as xml2js returns them *)

(** An element is its text when it has neither attributes nor children, and
    otherwise an object with the attribute object [$] (absent without
    attributes) and one array per child name.  The text of such an object
    (its member [_]) is never read by the engine and is left out. *)
Inductive xml : Type :=
  | XText (text : string)
  | XElem (attributes : option (gmap string string)) (children : list (string * list xml)).

(** The parser's result: an object with the root element under its name. *)
Record document : Type := { root_name : string; root : xml }.

Module Xml.

Fixpoint assoc {A} (name : string) (l : list (string * A)) : option A :=
  match l with
  | [] => None
  | (k, v) :: l' => if decide (k = name) then Some v else assoc name l'
  end.

(** [d[name]] *)
Definition root_member (name : string) (d : document) : option xml :=
  if decide (root_name d = name) then Some (root d) else None.

(** [v[name]]: the array of the children called [name]. *)
Definition child (name : string) (v : xml) : option (list xml) :=
  match v with
  | XText _ => None
  | XElem _ kids => assoc name kids
  end.

(** [v.$] *)
Definition attrs (v : xml) : option (gmap string string) :=
  match v with
  | XText _ => None
  | XElem a _ => a
  end.

(** A value inside a template literal. *)
Definition render (v : option xml) : string :=
  match v with
  | None => "undefined"
  | Some (XText s) => s
  | Some (XElem _ _) => "[object Object]"
  end.

(** Member access with the [TypeError] of an undefined receiver. *)
Definition get_root (name : string) (d : option document) : Result (option xml) :=
  d' ← defined d; Ok (root_member name d').
Definition member (name : string) (v : option xml) : Result (option (list xml)) :=
  v' ← defined v; Ok (child name v').
Definition first (a : option (list xml)) : Result (option xml) :=
  a' ← defined a; Ok (head a').
Definition attributes (v : option xml) : Result (option (gmap string string)) :=
  v' ← defined v; Ok (attrs v').
Definition attribute (name : string) (a : option (gmap string string)) : Result (option string) :=
  a' ← defined a; Ok (a' !! name).

End Xml.

(** ** The records of the engine *)

Module Chapter.
Record t : Type := {
  id : string;
  href : string;
  content : string;
  originalHref : option string;
  bookIndex : nat
}.
Definition set_content (c : t) (s : string) : t :=
  {| id := id c; href := href c; content := s;
     originalHref := originalHref c; bookIndex := bookIndex c |}.
End Chapter.

(** Images, styles and fonts.  Styles carry no [mediaType]. *)
Module Asset.
Record t : Type := {
  id : string;
  href : string;
  content : string;
  mediaType : option string;
  originalHref : string;
  bookIndex : nat
}.
End Asset.

Module BookMetadata.
Record t : Type := {
  title : option xml;
  author : option xml;
  bookIndex : nat
}.
End BookMetadata.

Module CombinedMetadata.
Record t : Type := {
  title : option xml;
  author : option xml;
  language : option xml;
  identifier : string
}.
End CombinedMetadata.

(** The arrays that the loop over the input books fills. *)
Record State : Type := {
  allChapters : list Chapter.t;
  allImages : list Asset.t;
  allStyles : list Asset.t;
  allFonts : list Asset.t;
  bookMetadata : list BookMetadata.t;
  combinedMetadata : CombinedMetadata.t
}.

(** ** The output archive *)

Inductive Compression : Type := STORE | DEFLATE.

(** A file added with [outputZip.file(name, data, options)]. *)
Record ZipFile : Type := { data : string; compression : option Compression }.

(** [zip.file(name, data, {compression})] adds the file or replaces the one
    of that name. *)
Definition file (name data : string) (c : option Compression)
    (zip : gmap string ZipFile) : gmap string ZipFile :=
  <[name := {| data := data; compression := c |}]> zip.

(** [zip.generateAsync({compression})]: a file without a compression of its
    own gets the archive-wide one.  The archive is kept as its entries, each
    with its contents and its compression method. *)
Definition generateAsync (c : Compression) (zip : gmap string ZipFile)
    : gmap string (string * Compression) :=
  (λ f, (data f, default c (compression f))) <$> zip.

(** ** The package and navigation documents handed to the XML builder *)

Record ManifestItem : Type := {
  item_id : string;
  item_href : string;
  item_media_type : option string
}.

Record OpfContent : Type := {
  dc_title : option xml;
  dc_creator : option xml;
  dc_language : option xml;
  dc_identifier : string;
  manifest : list ManifestItem;
  spine : list string
}.

Record NavPoint : Type := {
  nav_id : string;
  playOrder : string;
  navLabel : string;
  nav_src : string
}.

Record NcxContent : Type := {
  dtb_uid : string;
  docTitle : option xml;
  navMap : list NavPoint
}.

Inductive BuilderInput : Type :=
  | OpfObject (o : OpfContent)
  | NcxObject (n : NcxContent).

(** What a merge produces.  [epub] is the returned archive; the other fields
    are the arrays and documents it was assembled from. *)
Record Output : Type := {
  chapters : list Chapter.t;
  images : list Asset.t;
  styles : list Asset.t;
  fonts : list Asset.t;
  books : list BookMetadata.t;
  metadata : CombinedMetadata.t;
  tocHTML : string;
  opfContent : OpfContent;
  ncxContent : NcxContent;
  epub : gmap string (string * Compression)
}.

(** ** Fixed texts *)

Definition dq : string := String (ascii_of_nat 34) "".
Definition nl : string := String (ascii_of_nat 10) "".
Definition q (s : string) : string := dq +:+ s +:+ dq.

(** The lines of a text, joined by line feeds. *)
Fixpoint lines (l : list string) : string :=
  match l with
  | [] => ""
  | [x] => x
  | x :: l' => x +:+ nl +:+ lines l'
  end.

Definition xmlDeclaration : string :=
  "<?xml version=" +:+ q "1.0" +:+ " encoding=" +:+ q "UTF-8" +:+ "?>".

Definition containerXML : string := lines [
  xmlDeclaration;
  "<container version=" +:+ q "1.0" +:+ " xmlns="
    +:+ q "urn:oasis:names:tc:opendocument:xmlns:container" +:+ ">";
  "  <rootfiles>";
  "    <rootfile full-path=" +:+ q "OEBPS/content.opf" +:+ " media-type="
    +:+ q "application/oebps-package+xml" +:+ "/>";
  "  </rootfiles>";
  "</container>" ].

(** The table-of-contents page up to and including the opening of the list. *)
Definition tocHead : string := lines [
  xmlDeclaration;
  "<!DOCTYPE html PUBLIC " +:+ q "-//W3C//DTD XHTML 1.1//EN" +:+ " "
    +:+ q "http://www.w3.org/TR/xhtml11/DTD/xhtml11.dtd" +:+ ">";
  "<html xmlns=" +:+ q "http://www.w3.org/1999/xhtml" +:+ ">";
  "<head>";
  "  <title>Table of Contents</title>";
  "  <style type=" +:+ q "text/css" +:+ ">";
  "    body {";
  "      font-family: Georgia, serif;";
  "      margin: 2em;";
  "      line-height: 1.6;";
  "    }";
  "    h1 {";
  "      text-align: center;";
  "      color: #333;";
  "      border-bottom: 2px solid #333;";
  "      padding-bottom: 0.5em;";
  "      margin-bottom: 1.5em;";
  "    }";
  "    .toc-entry {";
  "      margin: 1.5em 0;";
  "      padding: 1em;";
  "      background-color: #f9f9f9;";
  "      border-left: 4px solid #333;";
  "    }";
  "    .toc-entry:hover {";
  "      background-color: #f0f0f0;";
  "    }";
  "    .book-title {";
  "      font-size: 1.2em;";
  "      font-weight: bold;";
  "      margin-bottom: 0.3em;";
  "    }";
  "    .book-title a {";
  "      color: #0066cc;";
  "      text-decoration: none;";
  "    }";
  "    .book-title a:hover {";
  "      text-decoration: underline;";
  "    }";
  "    .book-author {";
  "      font-size: 0.9em;";
  "      color: #666;";
  "      font-style: italic;";
  "    }";
  "    .book-number {";
  "      color: #999;";
  "      font-size: 0.9em;";
  "    }";
  "  </style>";
  "</head>";
  "<body>";
  "  <h1>Table of Contents</h1>";
  "  <div class=" +:+ q "toc-list" +:+ ">";
  "" ].

(** One entry of the table of contents. *)
Definition tocEntry (book : BookMetadata.t) (relativeLink : string) : string := lines [
  "    <div class=" +:+ q "toc-entry" +:+ ">";
  "      <div class=" +:+ q "book-number" +:+ ">Book "
    +:+ pretty (BookMetadata.bookIndex book + 1) +:+ "</div>";
  "      <div class=" +:+ q "book-title" +:+ "><a href=" +:+ q relativeLink +:+ ">"
    +:+ Xml.render (BookMetadata.title book) +:+ "</a></div>";
  "      <div class=" +:+ q "book-author" +:+ ">by "
    +:+ Xml.render (BookMetadata.author book) +:+ "</div>";
  "    </div>";
  "" ].

Definition tocTail : string := lines [ "  </div>"; "</body>"; "</html>" ].

Definition fontTypes : list string :=
  [ "application/font-woff"; "application/vnd.ms-opentype"; "application/x-font-ttf";
    "font/ttf"; "font/otf"; "font/woff"; "font/woff2" ].

(** ** Sample books *)

(** Small books on which the properties are exercised.  An input buffer is
    given by the files of its archive; the texts of its two XML files are
    names that [Sample.parse] maps to the parsed documents. *)
Module Sample.

Definition xhtml : string := "application/xhtml+xml".

Definition item (id href mediaType : string) : xml :=
  XElem (Some {[ "id" := id; "href" := href; "media-type" := mediaType ]}) [].

Definition itemref (idref : string) : xml :=
  XElem (Some {[ "idref" := idref ]}) [].

Definition package (metadata : list (string * list xml)) (items itemrefs : list xml)
    : document :=
  {| root_name := "package";
     root := XElem (Some {[ "version" := "2.0" ]})
       [ ("metadata", [XElem None metadata]);
         ("manifest", [XElem None [("item", items)]]);
         ("spine", [XElem (Some {[ "toc" := "ncx" ]}) [("itemref", itemrefs)]]) ] |}.

Definition container : document :=
  {| root_name := "container";
     root := XElem (Some {[ "version" := "1.0" ]})
       [ ("rootfiles",
          [XElem None
             [("rootfile", [XElem (Some {[ "full-path" := "OEBPS/content.opf" ]}) []])]]) ] |}.

Definition picture : string := "<img src=" +:+ q "pic.jpg" +:+ "/>".

(** Book A: one chapter showing [pic.jpg], and that image. *)
Definition packageA : document :=
  package [("dc:title", [XText "Alpha"]); ("dc:creator", [XText "Ann"])]
    [item "ch1" "ch1.xhtml" xhtml; item "pic" "pic.jpg" "image/jpeg"]
    [itemref "ch1"].

Definition bookA : gmap string string :=
  {[ "META-INF/container.xml" := "container";
     "OEBPS/content.opf" := "package A";
     "OEBPS/ch1.xhtml" := picture;
     "OEBPS/pic.jpg" := "picture of A" ]}.

(** Book B: the same names as in book A, another image, no title, no
    author and no language. *)
Definition packageB : document :=
  package []
    [item "ch1" "ch1.xhtml" xhtml; item "pic" "pic.jpg" "image/jpeg"]
    [itemref "ch1"].

Definition bookB : gmap string string :=
  {[ "META-INF/container.xml" := "container";
     "OEBPS/content.opf" := "package B";
     "OEBPS/ch1.xhtml" := picture;
     "OEBPS/pic.jpg" := "picture of B" ]}.

(** Book C: its spine lists one chapter twice. *)
Definition packageC : document :=
  package [("dc:title", [XText "Gamma"])]
    [item "ch1" "ch1.xhtml" xhtml]
    [itemref "ch1"; itemref "ch1"].

Definition bookC : gmap string string :=
  {[ "META-INF/container.xml" := "container";
     "OEBPS/content.opf" := "package C";
     "OEBPS/ch1.xhtml" := "<p>one</p>" ]}.

(** Book D: a chapter that names a font and a style sheet of the book. *)
Definition packageD : document :=
  package [("dc:title", [XText "Delta"])]
    [item "ch1" "ch1.xhtml" xhtml; item "f" "fonts/f.ttf" "font/ttf";
     item "css" "main.css" "text/css"]
    [itemref "ch1"].

Definition bookD : gmap string string :=
  {[ "META-INF/container.xml" := "container";
     "OEBPS/content.opf" := "package D";
     "OEBPS/ch1.xhtml" := "@font-face { src: url(fonts/f.ttf) } @import main.css";
     "OEBPS/fonts/f.ttf" := "font of D";
     "OEBPS/main.css" := "p { }" ]}.

(** Book E: its spine names an item that the manifest does not have, and
    an item whose file is not in the archive. *)
Definition packageE : document :=
  package [("dc:title", [XText "Epsilon"])]
    [item "ch1" "ch1.xhtml" xhtml; item "ch2" "ch2.xhtml" xhtml]
    [itemref "ghost"; itemref "ch1"; itemref "ch2"].

Definition packageE' : document :=
  package [("dc:title", [XText "Epsilon"])]
    [item "ch1" "ch1.xhtml" xhtml; item "ch2" "ch2.xhtml" xhtml]
    [itemref "ch1"; itemref "ch2"].

Definition bookE : gmap string string :=
  {[ "META-INF/container.xml" := "container";
     "OEBPS/content.opf" := "package E";
     "OEBPS/ch1.xhtml" := "<p>one</p>" ]}.

Definition bookE' : gmap string string :=
  {[ "META-INF/container.xml" := "container";
     "OEBPS/content.opf" := "package E'";
     "OEBPS/ch1.xhtml" := "<p>one</p>" ]}.

(** Book F: an archive without [META-INF/container.xml]. *)
Definition bookF : gmap string string :=
  {[ "OEBPS/content.opf" := "package A" ]}.

(** Book G: an archive whose container names a package document that is
    not there. *)
Definition bookG : gmap string string :=
  {[ "META-INF/container.xml" := "container" ]}.

(** Book H: two images whose identifiers and file names run together. *)
Definition packageH : document :=
  package [("dc:title", [XText "Eta"])]
    [item "ch1" "ch1.xhtml" xhtml; item "a" "b_c.jpg" "image/jpeg";
     item "a_b" "c.jpg" "image/jpeg"]
    [itemref "ch1"].

Definition bookH : gmap string string :=
  {[ "META-INF/container.xml" := "container";
     "OEBPS/content.opf" := "package H";
     "OEBPS/ch1.xhtml" := "<p>one</p>";
     "OEBPS/b_c.jpg" := "first picture";
     "OEBPS/c.jpg" := "second picture" ]}.

(** Book I: two images, the path of one being the end of the path of the
    other, and a chapter that shows the second. *)
Definition packageI : document :=
  package [("dc:title", [XText "Iota"])]
    [item "ch1" "ch1.xhtml" xhtml; item "p1" "pic.jpg" "image/jpeg";
     item "p2" "images/pic.jpg" "image/jpeg"]
    [itemref "ch1"].

Definition bookI : gmap string string :=
  {[ "META-INF/container.xml" := "container";
     "OEBPS/content.opf" := "package I";
     "OEBPS/ch1.xhtml" := "<img src=" +:+ q "images/pic.jpg" +:+ "/>";
     "OEBPS/pic.jpg" := "first picture";
     "OEBPS/images/pic.jpg" := "second picture" ]}.

Definition load (epubBuffer : gmap string string) : Result (gmap string string) :=
  Ok epubBuffer.

Definition parse (text : string) : Result (option document) :=
  match
    Xml.assoc text
      [ ("container", container); ("package A", packageA); ("package B", packageB);
        ("package C", packageC); ("package D", packageD); ("package E", packageE);
        ("package E'", packageE'); ("package H", packageH); ("package I", packageI) ]
  with
  | Some d => Ok (Some d)
  | None => Err (LibraryError "Error")
  end.

Definition build (o : BuilderInput) : string :=
  match o with
  | OpfObject _ => "content.opf"
  | NcxObject _ => "toc.ncx"
  end.

End Sample.

(** ** The configuration ([config.js]) *)

Module Config.
Definition maxFiles : nat := 10.
Definition maxFileSize : nat := 50 * 1024 * 1024.
Definition outputFilename : string := "combined.epub".
End Config.

(** ** The engine *)

Section Combiner.
Import JsString JsRegExp.

Context {Buffer : Type}.
(** [JSZip.loadAsync]: the files of an input archive, by name. *)
Variable loadAsync : Buffer → Result (gmap string string).
(** [parseString] of xml2js, promisified; its result is [null] on a blank text. *)
Variable parseXML : string → Result (option document).
(** The value of [uuidv4()]. *)
Variable uuid : string.
(** [builder.buildObject] of xml2js. *)
Variable buildObject : BuilderInput → string.

(** [l.push(x)] *)
Definition push {A} (l : list A) (x : A) : list A := l ++ [x].

(** *** Reading one book (lines 32-44) *)

(** [containerData.container.rootfiles[0].rootfile[0].$['full-path']] *)
Definition containerFullPath (containerData : option document) : Result (option string) :=
  Xml.get_root "container" containerData >>= Xml.member "rootfiles" >>= Xml.first
    >>= Xml.member "rootfile" >>= Xml.first >>= Xml.attributes >>= Xml.attribute "full-path".

Definition openPackage (epubBuffer : Buffer)
    : Result (gmap string string * string * option document) :=
  zip ← loadAsync epubBuffer;
  containerXML ← defined (zip !! "META-INF/container.xml");
  containerData ← parseXML containerXML;
  fullPath ← containerFullPath containerData;
  contentOpfPath ← defined fullPath;
  let baseDir := substring 0 (lastIndexOf "/" contentOpfPath + 1) contentOpfPath in
  contentOpfXML ← defined (zip !! contentOpfPath);
  opfData ← parseXML contentOpfXML;
  Ok (zip, baseDir, opfData).

(** [opfData.package.metadata[0]], [opfData.package.manifest[0].item] and
    [opfData.package.spine[0].itemref]. *)
Definition opfMetadata (opfData : option document) : Result (option xml) :=
  Xml.get_root "package" opfData >>= Xml.member "metadata" >>= Xml.first.
Definition opfManifest (opfData : option document) : Result (option (list xml)) :=
  Xml.get_root "package" opfData >>= Xml.member "manifest" >>= Xml.first >>= Xml.member "item".
Definition opfSpine (opfData : option document) : Result (option (list xml)) :=
  Xml.get_root "package" opfData >>= Xml.member "spine" >>= Xml.first >>= Xml.member "itemref".

(** *** Metadata (lines 46-62) *)

(** [metadata[name] ? metadata[name][0] : fallback] *)
Definition metadataOr (name : string) (metadata : xml) (fallback : option xml) : option xml :=
  match Xml.child name metadata with
  | Some a => head a
  | None => fallback
  end.

Definition bookTitle (i : nat) (metadata : xml) : option xml :=
  metadataOr "dc:title" metadata (Some (XText ("Book " +:+ pretty (i + 1)))).

Definition bookAuthor (metadata : xml) : option xml :=
  metadataOr "dc:creator" metadata (Some (XText "Unknown Author")).

Definition initialMetadata : CombinedMetadata.t :=
  {| CombinedMetadata.title := Some (XText "Combined EPUB");
     CombinedMetadata.author := Some (XText "Multiple Authors");
     CombinedMetadata.language := Some (XText "en");
     CombinedMetadata.identifier := uuid |}.

(** The three assignments under [if (i === 0)]. *)
Definition firstBookMetadata (metadata : xml) (c : CombinedMetadata.t) : CombinedMetadata.t :=
  {| CombinedMetadata.title := metadataOr "dc:title" metadata (CombinedMetadata.title c);
     CombinedMetadata.author := metadataOr "dc:creator" metadata (CombinedMetadata.author c);
     CombinedMetadata.language := metadataOr "dc:language" metadata (CombinedMetadata.language c);
     CombinedMetadata.identifier := CombinedMetadata.identifier c |}.

(** *** The manifest map (lines 68-72) *)

(** [manifestMap[item.$.id] = item.$].  The map is a plain object: a lookup
    of a name that is no item id gives [undefined] or an inherited value
    without a [media-type], and both are skipped by the test of line 79, as
    [None] is here. *)
Definition addManifestItem (manifestMap : gmap string (gmap string string)) (item : xml)
    : Result (gmap string (gmap string string)) :=
  a ← defined (Xml.attrs item);
  Ok (<[to_string (a !! "id") := a]> manifestMap).

(** *** Chapters, in spine order (lines 74-97) *)

Definition newChapterId (i : nat) (itemId : option string) : string :=
  "chapter_" +:+ pretty i +:+ "_" +:+ to_string itemId.

Definition newChapterHref (i : nat) (itemId : option string) : string :=
  "OEBPS/Text/" +:+ newChapterId i itemId +:+ ".xhtml".

Definition extractChapter (i : nat) (zip : gmap string string) (baseDir : string)
    (manifestMap : gmap string (gmap string string))
    (allChapters : list Chapter.t) (itemref : xml) : Result (list Chapter.t) :=
  a ← defined (Xml.attrs itemref);
  let itemId := a !! "idref" in
  match manifestMap !! to_string itemId with
  | Some manifestItem =>
      if decide (manifestItem !! "media-type" = Some "application/xhtml+xml") then
        let chapterPath := baseDir +:+ to_string (manifestItem !! "href") in
        match zip !! chapterPath with
        | Some chapterContent =>
            Ok (push allChapters
                  {| Chapter.id := newChapterId i itemId;
                     Chapter.href := newChapterHref i itemId;
                     Chapter.content := chapterContent;
                     Chapter.originalHref := manifestItem !! "href";
                     Chapter.bookIndex := i |})
        | None => Ok allChapters
        end
      else Ok allChapters
  | None => Ok allChapters
  end.

(** *** Images, styles and fonts (lines 99-173) *)

(** [href.substring(href.lastIndexOf('/') + 1)] *)
Definition fileName (href : string) : string :=
  substring_from (lastIndexOf "/" href + 1) href.

Definition newAssetId (kind : string) (i : nat) (id : option string) : string :=
  kind +:+ "_" +:+ pretty i +:+ "_" +:+ to_string id.

Definition newAssetHref (dir kind : string) (i : nat) (id : option string) (name : string)
    : string :=
  "OEBPS/" +:+ dir +:+ "/" +:+ newAssetId kind i id +:+ "_" +:+ name.

Definition extractImage (i : nat) (zip : gmap string string) (baseDir : string)
    (allImages : list Asset.t) (item : xml) : Result (list Asset.t) :=
  a ← defined (Xml.attrs item);
  let href := a !! "href" in
  let mediaType := a !! "media-type" in
  match mediaType with
  | Some mt =>
      if startsWith "image/" mt then
        let imagePath := baseDir +:+ to_string href in
        match zip !! imagePath with
        | Some imageContent =>
            h ← defined href;
            let imageName := fileName h in
            Ok (push allImages
                  {| Asset.id := newAssetId "img" i (a !! "id");
                     Asset.href := newAssetHref "Images" "img" i (a !! "id") imageName;
                     Asset.content := imageContent;
                     Asset.mediaType := mediaType;
                     Asset.originalHref := h;
                     Asset.bookIndex := i |})
        | None => Ok allImages
        end
      else Ok allImages
  | None => Ok allImages
  end.

Definition extractStyle (i : nat) (zip : gmap string string) (baseDir : string)
    (allStyles : list Asset.t) (item : xml) : Result (list Asset.t) :=
  a ← defined (Xml.attrs item);
  if decide (a !! "media-type" = Some "text/css") then
    let cssPath := baseDir +:+ to_string (a !! "href") in
    match zip !! cssPath with
    | Some cssContent =>
        h ← defined (a !! "href");
        let cssName := fileName h in
        Ok (push allStyles
              {| Asset.id := newAssetId "style" i (a !! "id");
                 Asset.href := newAssetHref "Styles" "style" i (a !! "id") cssName;
                 Asset.content := cssContent;
                 Asset.mediaType := None;
                 Asset.originalHref := h;
                 Asset.bookIndex := i |})
    | None => Ok allStyles
    end
  else Ok allStyles.

(** [fontTypes.includes(mediaType)] *)
Definition isFontType (mediaType : option string) : bool :=
  match mediaType with
  | Some mt => bool_decide (mt ∈ fontTypes)
  | None => false
  end.

Definition extractFont (i : nat) (zip : gmap string string) (baseDir : string)
    (allFonts : list Asset.t) (item : xml) : Result (list Asset.t) :=
  a ← defined (Xml.attrs item);
  if isFontType (a !! "media-type") then
    let fontPath := baseDir +:+ to_string (a !! "href") in
    match zip !! fontPath with
    | Some fontContent =>
        h ← defined (a !! "href");
        let fontName := fileName h in
        Ok (push allFonts
              {| Asset.id := newAssetId "font" i (a !! "id");
                 Asset.href := newAssetHref "Fonts" "font" i (a !! "id") fontName;
                 Asset.content := fontContent;
                 Asset.mediaType := a !! "media-type";
                 Asset.originalHref := h;
                 Asset.bookIndex := i |})
    | None => Ok allFonts
    end
  else Ok allFonts.

(** *** One iteration of the loop over the books (lines 30-174) *)

Definition processBook (st : State) (i : nat) (epubBuffer : Buffer) : Result State :=
  '(zip, baseDir, opfData) ← openPackage epubBuffer;
  metadata ← opfMetadata opfData >>= defined;
  let bookMetadata' :=
    push (bookMetadata st)
      {| BookMetadata.title := bookTitle i metadata;
         BookMetadata.author := bookAuthor metadata;
         BookMetadata.bookIndex := i |} in
  let combinedMetadata' :=
    if decide (i = 0) then firstBookMetadata metadata (combinedMetadata st)
    else combinedMetadata st in
  manifest ← opfManifest opfData;
  spine ← opfSpine opfData;
  manifest ← defined manifest;
  manifestMap ← for_of addManifestItem manifest ∅;
  spine ← defined spine;
  allChapters' ← for_of (extractChapter i zip baseDir manifestMap) spine (allChapters st);
  allImages' ← for_of (extractImage i zip baseDir) manifest (allImages st);
  allStyles' ← for_of (extractStyle i zip baseDir) manifest (allStyles st);
  allFonts' ← for_of (extractFont i zip baseDir) manifest (allFonts st);
  Ok {| allChapters := allChapters'; allImages := allImages'; allStyles := allStyles';
        allFonts := allFonts'; bookMetadata := bookMetadata';
        combinedMetadata := combinedMetadata' |}.

Definition initialState : State :=
  {| allChapters := []; allImages := []; allStyles := []; allFonts := [];
     bookMetadata := []; combinedMetadata := initialMetadata |}.

Definition extractBooks (epubBuffers : list Buffer) : Result State :=
  for_index processBook 0 epubBuffers initialState.

(** *** The reference rewriter (lines 176-200) *)

(** [`../${asset.href.replace('OEBPS/', '')}`] *)
Definition relativePath (asset : Asset.t) : string :=
  "../" +:+ replace_first "OEBPS/" "" (Asset.href asset).

(** The body of the loops over [allImages] and over [allStyles]. *)
Definition updateReference (chapter : Chapter.t) (updatedContent : string) (asset : Asset.t)
    : Result string :=
  if decide (Asset.bookIndex asset = Chapter.bookIndex chapter) then
    let relativePath := relativePath asset in
    let escapedHref := escapeRegExp (Asset.originalHref asset) in
    re ← RegExp_new escapedHref;
    Ok (replace re relativePath updatedContent)
  else Ok updatedContent.

Definition updateChapter (allImages allStyles : list Asset.t) (chapter : Chapter.t)
    : Result Chapter.t :=
  let updatedContent := Chapter.content chapter in
  updatedContent ← for_of (updateReference chapter) allImages updatedContent;
  updatedContent ← for_of (updateReference chapter) allStyles updatedContent;
  Ok (Chapter.set_content chapter updatedContent).

Definition updateChapters (allImages allStyles : list Asset.t) (allChapters : list Chapter.t)
    : Result (list Chapter.t) :=
  for_each (updateChapter allImages allStyles) allChapters.

(** *** The table of contents (lines 216-297) *)

(** [if (!bookFirstChapters[chapter.bookIndex]) bookFirstChapters[...] = chapter] *)
Definition noteFirstChapter (bookFirstChapters : gmap nat Chapter.t) (chapter : Chapter.t)
    : gmap nat Chapter.t :=
  match bookFirstChapters !! Chapter.bookIndex chapter with
  | Some _ => bookFirstChapters
  | None => <[Chapter.bookIndex chapter := chapter]> bookFirstChapters
  end.

Definition addTocEntry (bookFirstChapters : gmap nat Chapter.t) (tocHTML : string)
    (book : BookMetadata.t) : string :=
  match bookFirstChapters !! BookMetadata.bookIndex book with
  | Some firstChapter =>
      let relativeLink := replace_first "OEBPS/" "" (Chapter.href firstChapter) in
      tocHTML +:+ tocEntry book relativeLink
  | None => tocHTML
  end.

Definition buildToc (allChapters : list Chapter.t) (bookMetadata : list BookMetadata.t)
    : string :=
  let bookFirstChapters := foldl noteFirstChapter ∅ allChapters in
  foldl (addTocEntry bookFirstChapters) tocHead bookMetadata +:+ tocTail.

(** *** The package document (lines 316-421) *)

Definition tocItem : ManifestItem :=
  {| item_id := "toc-page"; item_href := "Text/toc.xhtml";
     item_media_type := Some "application/xhtml+xml" |}.

Definition ncxItem : ManifestItem :=
  {| item_id := "ncx"; item_href := "toc.ncx";
     item_media_type := Some "application/x-dtbncx+xml" |}.

Definition chapterItem (chapter : Chapter.t) : ManifestItem :=
  {| item_id := Chapter.id chapter;
     item_href := replace_first "OEBPS/" "" (Chapter.href chapter);
     item_media_type := Some "application/xhtml+xml" |}.

Definition assetItem (asset : Asset.t) : ManifestItem :=
  {| item_id := Asset.id asset;
     item_href := replace_first "OEBPS/" "" (Asset.href asset);
     item_media_type := Asset.mediaType asset |}.

Definition styleItem (style : Asset.t) : ManifestItem :=
  {| item_id := Asset.id style;
     item_href := replace_first "OEBPS/" "" (Asset.href style);
     item_media_type := Some "text/css" |}.

(** [for (const x of l) { items.push(f(x)) }] *)
Definition pushAll {A B} (f : A → B) (l : list A) (items : list B) : list B :=
  foldl (λ items x, push items (f x)) items l.

Definition buildOpf (st : State) : OpfContent :=
  let manifestItems := push [] tocItem in
  let spineItems := push [] "toc-page" in
  let manifestItems := pushAll chapterItem (allChapters st) manifestItems in
  let spineItems := pushAll Chapter.id (allChapters st) spineItems in
  let manifestItems := pushAll assetItem (allImages st) manifestItems in
  let manifestItems := pushAll styleItem (allStyles st) manifestItems in
  let manifestItems := pushAll assetItem (allFonts st) manifestItems in
  let manifestItems := push manifestItems ncxItem in
  {| dc_title := CombinedMetadata.title (combinedMetadata st);
     dc_creator := CombinedMetadata.author (combinedMetadata st);
     dc_language := CombinedMetadata.language (combinedMetadata st);
     dc_identifier := CombinedMetadata.identifier (combinedMetadata st);
     manifest := manifestItems;
     spine := spineItems |}.

(** *** The navigation document (lines 423-461) *)

Definition navPoint (index : nat) (chapter : Chapter.t) : NavPoint :=
  {| nav_id := "navPoint-" +:+ pretty (index + 1);
     playOrder := pretty (index + 1);
     navLabel := "Chapter " +:+ pretty (index + 1);
     nav_src := replace_first "OEBPS/" "" (Chapter.href chapter) |}.

Definition buildNcx (st : State) : NcxContent :=
  {| dtb_uid := CombinedMetadata.identifier (combinedMetadata st);
     docTitle := CombinedMetadata.title (combinedMetadata st);
     navMap := imap navPoint (allChapters st) |}.

(** *** The files of the output archive (lines 204-214, 297-314, 421, 461) *)

Definition addChapterFile (zip : gmap string ZipFile) (chapter : Chapter.t)
    : gmap string ZipFile :=
  file (Chapter.href chapter) (Chapter.content chapter) None zip.

Definition addAssetFile (zip : gmap string ZipFile) (asset : Asset.t) : gmap string ZipFile :=
  file (Asset.href asset) (Asset.content asset) None zip.

Definition buildArchive (st : State) (tocHTML opfXML ncxXML : string) : gmap string ZipFile :=
  let outputZip := file "mimetype" "application/epub+zip" (Some STORE) ∅ in
  let outputZip := file "META-INF/container.xml" containerXML None outputZip in
  let outputZip := file "OEBPS/Text/toc.xhtml" tocHTML None outputZip in
  let outputZip := foldl addChapterFile outputZip (allChapters st) in
  let outputZip := foldl addAssetFile outputZip (allImages st) in
  let outputZip := foldl addAssetFile outputZip (allStyles st) in
  let outputZip := foldl addAssetFile outputZip (allFonts st) in
  let outputZip := file "OEBPS/content.opf" opfXML None outputZip in
  file "OEBPS/toc.ncx" ncxXML None outputZip.

(** *** [combineEpubs] *)

Definition combineEpubs (epubBuffers : list Buffer) : Result Output :=
  st ← extractBooks epubBuffers;
  allChapters' ← updateChapters (allImages st) (allStyles st) (allChapters st);
  let st :=
    {| allChapters := allChapters'; allImages := allImages st; allStyles := allStyles st;
       allFonts := allFonts st; bookMetadata := bookMetadata st;
       combinedMetadata := combinedMetadata st |} in
  let tocHTML := buildToc (allChapters st) (bookMetadata st) in
  let opfContent := buildOpf st in
  let opfXML := buildObject (OpfObject opfContent) in
  let ncxContent := buildNcx st in
  let ncxXML := buildObject (NcxObject ncxContent) in
  let outputZip := buildArchive st tocHTML opfXML ncxXML in
  Ok {| chapters := allChapters st; images := allImages st; styles := allStyles st;
        fonts := allFonts st; books := bookMetadata st; metadata := combinedMetadata st;
        tocHTML := tocHTML; opfContent := opfContent; ncxContent := ncxContent;
        epub := generateAsync DEFLATE outputZip |}.


(** ** Notions used to state the properties *)

(** What [processBook] has read of a book when it starts to extract:
    lines 32-47 and 64-72. *)
Record BookView : Type := {
  view_zip : gmap string string;
  view_baseDir : string;
  view_metadata : xml;
  view_manifest : list xml;
  view_spine : list xml;
  view_manifestMap : gmap string (gmap string string)
}.

Definition viewBook (epubBuffer : Buffer) : Result BookView :=
  '(zip, baseDir, opfData) ← openPackage epubBuffer;
  metadata ← opfMetadata opfData >>= defined;
  manifest ← opfManifest opfData;
  spine ← opfSpine opfData;
  manifest ← defined manifest;
  manifestMap ← for_of addManifestItem manifest ∅;
  spine ← defined spine;
  Ok {| view_zip := zip; view_baseDir := baseDir; view_metadata := metadata;
        view_manifest := manifest; view_spine := spine;
        view_manifestMap := manifestMap |}.

(** The extraction of [processBook], on what was read. *)
Definition extractView (st : State) (i : nat) (v : BookView) : Result State :=
  let bookMetadata' :=
    push (bookMetadata st)
      {| BookMetadata.title := bookTitle i (view_metadata v);
         BookMetadata.author := bookAuthor (view_metadata v);
         BookMetadata.bookIndex := i |} in
  let combinedMetadata' :=
    if decide (i = 0) then firstBookMetadata (view_metadata v) (combinedMetadata st)
    else combinedMetadata st in
  allChapters' ← for_of (extractChapter i (view_zip v) (view_baseDir v) (view_manifestMap v))
                   (view_spine v) (allChapters st);
  allImages' ← for_of (extractImage i (view_zip v) (view_baseDir v))
                 (view_manifest v) (allImages st);
  allStyles' ← for_of (extractStyle i (view_zip v) (view_baseDir v))
                 (view_manifest v) (allStyles st);
  allFonts' ← for_of (extractFont i (view_zip v) (view_baseDir v))
                (view_manifest v) (allFonts st);
  Ok {| allChapters := allChapters'; allImages := allImages'; allStyles := allStyles';
        allFonts := allFonts'; bookMetadata := bookMetadata';
        combinedMetadata := combinedMetadata' |}.

(** The key under which the spine looks an [itemref] up, and the key under
    which the manifest map holds an [item]. *)
Definition spineKey (itemref : xml) : option string :=
  (λ a : gmap string string, to_string (a !! "idref")) <$> Xml.attrs itemref.
Definition manifestKey (item : xml) : option string :=
  (λ a : gmap string string, to_string (a !! "id")) <$> Xml.attrs item.

(** An [itemref] is resolvable when its [idref] names a manifest item that
    is an XHTML document whose file is in the archive. *)
Definition resolvable (v : BookView) (itemref : xml) : bool :=
  match spineKey itemref with
  | Some key =>
      match view_manifestMap v !! key with
      | Some manifestItem =>
          bool_decide (manifestItem !! "media-type" = Some "application/xhtml+xml")
          && bool_decide (is_Some
               (view_zip v !! (view_baseDir v +:+ to_string (manifestItem !! "href"))))
      | None => false
      end
  | None => false
  end.

(** The four kinds of records. *)
Inductive Kind : Type := KChapter | KImage | KStyle | KFont.

(** The prefix of the identifiers and the directory of each kind. *)
Definition kindPrefix (k : Kind) : string :=
  match k with
  | KChapter => "chapter"
  | KImage => "img"
  | KStyle => "style"
  | KFont => "font"
  end.

Definition kindDir (k : Kind) : string :=
  match k with
  | KChapter => "Text"
  | KImage => "Images"
  | KStyle => "Styles"
  | KFont => "Fonts"
  end.

(** The identifier made for the item with key [key] of book [i]. *)
Definition entryId (k : Kind) (i : nat) (key : string) : string :=
  kindPrefix k +:+ "_" +:+ pretty i +:+ "_" +:+ key.

(** The identifiers of the chapters of book [i]: one for each resolvable
    entry of its spine, in the order of the spine. *)
Definition spineChapterIds (i : nat) (v : BookView) : list string :=
  omap (λ itemref, entryId KChapter i <$> spineKey itemref)
    (filter (λ itemref, resolvable v itemref = true) (view_spine v)).

Record Entry : Type := {
  entry_kind : Kind;
  entry_id : string;
  entry_href : string;
  entry_book : nat
}.

Definition chapterEntry (c : Chapter.t) : Entry :=
  {| entry_kind := KChapter; entry_id := Chapter.id c; entry_href := Chapter.href c;
     entry_book := Chapter.bookIndex c |}.

Definition assetEntry (k : Kind) (a : Asset.t) : Entry :=
  {| entry_kind := k; entry_id := Asset.id a; entry_href := Asset.href a;
     entry_book := Asset.bookIndex a |}.

(** All the chapters and assets of an output. *)
Definition entries (out : Output) : list Entry :=
  (chapterEntry <$> chapters out) ++ (assetEntry KImage <$> images out)
  ++ (assetEntry KStyle <$> styles out) ++ (assetEntry KFont <$> fonts out).

(** One step of the rewriter seen as a replacement of a literal text. *)
Definition literalStep (content : string) (asset : Asset.t) : string :=
  replace {| literal := Asset.originalHref asset |} (relativePath asset) content.

(** The assets that the rewriter considers for a chapter, in its order. *)
Definition sameBook (chapter : Chapter.t) (allImages allStyles : list Asset.t) : list Asset.t :=
  filter (λ a, Asset.bookIndex a = Chapter.bookIndex chapter) allImages
  ++ filter (λ a, Asset.bookIndex a = Chapter.bookIndex chapter) allStyles.

(** The first chapter of a book, if it has one. *)
Definition firstChapterOf (allChapters : list Chapter.t) (i : nat) : option Chapter.t :=
  snd <$> list_find (λ c, Chapter.bookIndex c = i) allChapters.

(** The table-of-contents entries, book by book. *)
Fixpoint tocEntries (allChapters : list Chapter.t) (books : list BookMetadata.t) : string :=
  match books with
  | [] => ""
  | book :: books' =>
      match firstChapterOf allChapters (BookMetadata.bookIndex book) with
      | Some firstChapter =>
          tocEntry book (replace_first "OEBPS/" "" (Chapter.href firstChapter))
      | None => ""
      end +:+ tocEntries allChapters books'
  end.

(** What a loop body pushes for [x], if anything. *)
Definition emitted {A T} (f : list T → A → Result (list T)) (x : A) : option T :=
  match f [] x with
  | Ok (y :: _) => Some y
  | _ => None
  end.

(** [F 0 v0 ++ F 1 v1 ++ ...]: what the books contribute, book after book. *)
Fixpoint perBook {T} (F : nat → BookView → list T) (i : nat) (views : list BookView) : list T :=
  match views with
  | [] => []
  | v :: views' => F i v ++ perBook F (S i) views'
  end.

Definition viewChapters (i : nat) (v : BookView) : list Chapter.t :=
  omap (emitted (extractChapter i (view_zip v) (view_baseDir v) (view_manifestMap v)))
    (view_spine v).
Definition viewImages (i : nat) (v : BookView) : list Asset.t :=
  omap (emitted (extractImage i (view_zip v) (view_baseDir v))) (view_manifest v).
Definition viewStyles (i : nat) (v : BookView) : list Asset.t :=
  omap (emitted (extractStyle i (view_zip v) (view_baseDir v))) (view_manifest v).
Definition viewFonts (i : nat) (v : BookView) : list Asset.t :=
  omap (emitted (extractFont i (view_zip v) (view_baseDir v))) (view_manifest v).
Definition viewMetadata (i : nat) (v : BookView) : list BookMetadata.t :=
  [ {| BookMetadata.title := bookTitle i (view_metadata v);
       BookMetadata.author := bookAuthor (view_metadata v);
       BookMetadata.bookIndex := i |} ].

(** An entry has the identifier of [key] in its book, and a path in the
    directory of its kind that starts with its identifier. *)
Definition shaped (key : string) (e : Entry) : Prop :=
  entry_id e = entryId (entry_kind e) (entry_book e) key
  ∧ ∃ rest, entry_href e = "OEBPS/" +:+ kindDir (entry_kind e) +:+ "/" +:+ entry_id e +:+ rest.

(** The state with the rewritten chapters. *)
Definition set_allChapters (st : State) (allChapters' : list Chapter.t) : State :=
  {| allChapters := allChapters'; allImages := allImages st; allStyles := allStyles st;
     allFonts := allFonts st; bookMetadata := bookMetadata st;
     combinedMetadata := combinedMetadata st |}.

(** What [combineEpubs] assembles from the final arrays. *)
Definition assemble (st : State) : Output :=
  let tocHTML := buildToc (allChapters st) (bookMetadata st) in
  {| chapters := allChapters st; images := allImages st; styles := allStyles st;
     fonts := allFonts st; books := bookMetadata st; metadata := combinedMetadata st;
     tocHTML := tocHTML; opfContent := buildOpf st; ncxContent := buildNcx st;
     epub := generateAsync DEFLATE
       (buildArchive st tocHTML (buildObject (OpfObject (buildOpf st)))
          (buildObject (NcxObject (buildNcx st)))) |}.

(** The content of a chapter after the rewriter. *)
Definition rewrittenBy (allImages allStyles : list Asset.t) (chapter : Chapter.t) : Chapter.t :=
  Chapter.set_content chapter
    (foldl literalStep (Chapter.content chapter) (sameBook chapter allImages allStyles)).

(** An [itemref] with attributes that the chapter loop cannot resolve: its
    [idref] is missing from the manifest, or names an item whose file is
    missing from the archive. *)
Definition dangling (v : BookView) (itemref : xml) : Prop :=
  ∃ a, Xml.attrs itemref = Some a
    ∧ (view_manifestMap v !! to_string (a !! "idref") = None
       ∨ ∃ manifestItem,
           view_manifestMap v !! to_string (a !! "idref") = Some manifestItem
           ∧ view_zip v !! (view_baseDir v +:+ to_string (manifestItem !! "href")) = None).

(** Two archives that hold the same files under the paths of the manifest
    items of [v]. *)
Definition sameFiles (v v' : BookView) : Prop :=
  Forall (λ item,
    match Xml.attrs item with
    | Some a =>
        view_zip v !! (view_baseDir v +:+ to_string (a !! "href"))
        = view_zip v' !! (view_baseDir v +:+ to_string (a !! "href"))
    | None => True
    end) (view_manifest v).


(** ** The route [POST /combine-epubs] ([index.js], lines 85-137) *)

(** A file as the upload middleware hands it to the route. *)
Record UploadedFile : Type := {
  originalname : string;
  mimetype : string;
  buffer : Buffer
}.

(** What the route answers: a JSON object with a status, or the combined
    book with its headers.  The [Content-Length] header is the number of
    bytes of the serialized archive, which the model of the archive does not
    have, and the [details] of an internal error are the message of the
    thrown error, for which the error itself stands. *)
Inductive Response : Type :=
  | JsonError (status : nat) (error message : string) (details : option JsError)
  | EpubFile (contentType contentDisposition : string) (body : Output).

(** The route handler applied to [req.files]. *)
Definition combineHandler (files : option (list UploadedFile)) : Response :=
  match files with
  | None =>
      JsonError 400 "No files uploaded" "Please upload at least one EPUB file" None
  | Some files =>
      if decide (length files = 0) then
        JsonError 400 "No files uploaded" "Please upload at least one EPUB file" None
      else if decide (length files < 2) then
        JsonError 400 "Insufficient files" "Please upload at least 2 EPUB files to combine" None
      else if decide (Config.maxFiles < length files) then
        JsonError 400 "Too many files"
          ("Maximum " +:+ pretty Config.maxFiles +:+ " files allowed") None
      else
        let epubBuffers := buffer <$> files in
        match combineEpubs epubBuffers with
        | Ok combinedEpubBuffer =>
            EpubFile "application/epub+zip"
              ("attachment; filename=" +:+ q Config.outputFilename)
              combinedEpubBuffer
        | Err error =>
            JsonError 500 "Internal server error" "Failed to combine EPUB files" (Some error)
        end
  end.


(** The content files of an output, in the order in which [combineEpubs]
    adds them to the archive: the path and the content of each chapter,
    image, style and font. *)
Definition contentFiles (out : Output) : list (string * string) :=
  ((λ c, (Chapter.href c, Chapter.content c)) <$> chapters out)
  ++ ((λ a, (Asset.href a, Asset.content a)) <$> images out)
  ++ ((λ a, (Asset.href a, Asset.content a)) <$> styles out)
  ++ ((λ a, (Asset.href a, Asset.content a)) <$> fonts out).

(** [outputZip.file(path, content)] *)
Definition addFile (zip : gmap string ZipFile) (p : string * string) : gmap string ZipFile :=
  file p.1 p.2 None zip.

(** The paths of the archive that no manifest item stands for. *)
Definition unlisted : list string :=
  [ "mimetype"; "META-INF/container.xml"; "OEBPS/content.opf" ].

(** The entries of the table of contents that the books stand for: one for
    each book with a chapter, linking to the first chapter of its spine. *)
Fixpoint tocOfBooks (i : nat) (views : list BookView) : string :=
  match views with
  | [] => ""
  | v :: views' =>
      match head (spineChapterIds i v) with
      | Some firstId =>
          tocEntry {| BookMetadata.title := bookTitle i (view_metadata v);
                      BookMetadata.author := bookAuthor (view_metadata v);
                      BookMetadata.bookIndex := i |}
            ("Text/" +:+ firstId +:+ ".xhtml")
      | None => ""
      end +:+ tocOfBooks (S i) views'
  end.

(** * Properties *)

(** ** Strings *)


Lemma str_app_cons c s t : String c s +:+ t = String c (s +:+ t).
Proof. reflexivity. Qed.

Lemma str_app_nil_r s : s +:+ "" = s.
Proof. induction s as [|c s IH]; [done|]. by rewrite str_app_cons, IH. Qed.

Lemma str_app_assoc s t u : (s +:+ t) +:+ u = s +:+ t +:+ u.
Proof. induction s as [|c s IH]; [done|]. by rewrite !str_app_cons, IH. Qed.

Lemma str_length_app s t : String.length (s +:+ t) = String.length s + String.length t.
Proof. induction s as [|c s IH]; [done|]. rewrite str_app_cons. simpl. by rewrite IH. Qed.

Lemma str_app_eq_nil s t : s +:+ t = "" → s = "" ∧ t = "".
Proof. destruct s; [done|]. by rewrite str_app_cons. Qed.

Lemma startsWith_app p v : startsWith p (p +:+ v) = true.
Proof.
  unfold startsWith. induction p as [|c p IH]; [by destruct v|].
  rewrite str_app_cons. simpl. by destruct (ascii_dec c c).
Qed.

Lemma startsWith_inv p s : startsWith p s = true → ∃ v, s = p +:+ v.
Proof.
  unfold startsWith. revert s. induction p as [|c p IH]; intros s H.
  - by exists s.
  - destruct s as [|d s]; [done|]. simpl in H.
    destruct (ascii_dec c d) as [->|]; [|done].
    destruct (IH _ H) as [v ->]. by exists v.
Qed.

Lemma startsWith_spec p s : startsWith p s = true ↔ ∃ v, s = p +:+ v.
Proof.
  split; [apply startsWith_inv|]. intros [v ->]. apply startsWith_app.
Qed.

Lemma str_drop_app p v : drop (String.length p) (p +:+ v) = v.
Proof. induction p as [|c p IH]; [by destruct v|]. by rewrite str_app_cons. Qed.

Lemma replace_first_unfold pat rep s :
  replace_first pat rep s =
  if startsWith pat s then rep +:+ drop (String.length pat) s
  else match s with
       | "" => ""
       | String c s' => String c (replace_first pat rep s')
       end.
Proof. by destruct s. Qed.

Lemma replace_first_prefix p v : replace_first p "" (p +:+ v) = v.
Proof. by rewrite replace_first_unfold, startsWith_app, str_drop_app. Qed.

Lemma includes_unfold pat s :
  includes pat s =
  if startsWith pat s then true
  else match s with
       | "" => false
       | String _ s' => includes pat s'
       end.
Proof. by destruct s. Qed.

Lemma includes_occurs pat s : includes pat s = true ↔ occurs pat s.
Proof.
  split.
  - induction s as [|c s IH]; rewrite includes_unfold;
      destruct (startsWith pat _) eqn:E; try done.
    + intros _. apply startsWith_inv in E as [v E]. by exists "", v.
    + intros _. apply startsWith_inv in E as [v E]. by exists "", v.
    + intros H. destruct (IH H) as (u & v & ->). by exists (String c u), v.
  - intros (u & v & ->). induction u as [|c u IH].
    + change ("" +:+ pat +:+ v) with (pat +:+ v).
      by rewrite includes_unfold, startsWith_app.
    + rewrite str_app_cons, includes_unfold, IH. by destruct (startsWith _ _).
Qed.

Lemma not_includes_occurs pat s : includes pat s = false ↔ ¬ occurs pat s.
Proof.
  rewrite <- includes_occurs. by destruct (includes pat s).
Qed.

Lemma occurs_cons_inv pat c s :
  occurs pat (String c s) → startsWith pat (String c s) = true ∨ occurs pat s.
Proof.
  intros (u & v & E). destruct u as [|d u].
  - left. change ("" +:+ pat +:+ v) with (pat +:+ v) in E. rewrite E. apply startsWith_app.
  - right. rewrite str_app_cons in E. injection E as _ ->. by exists u, v.
Qed.

Lemma pretty_N_char_digit x : digit (pretty_N_char x) = true.
Proof. unfold pretty_N_char. by repeat case_match. Qed.

Lemma pretty_N_go_digits x s : digits s = true → digits (pretty_N_go x s) = true.
Proof.
  revert s. induction (N.lt_wf_0 x) as [x _ IH]; intros s Hs.
  destruct (decide (x = 0)%N) as [->|].
  - by rewrite pretty_N_go_0.
  - rewrite pretty_N_go_step by lia. apply IH.
    + apply N.div_lt; lia.
    + simpl. by rewrite pretty_N_char_digit.
Qed.

Lemma pretty_nat_digits (n : nat) : digits (pretty n) = true.
Proof.
  unfold pretty, pretty_nat, pretty, pretty_N. case_decide; [done|].
  by apply pretty_N_go_digits.
Qed.

(** A numeral followed by an underscore can be read back in one way only. *)
Lemma digits_underscore_inj a b x y :
  digits a = true → digits b = true →
  a +:+ "_" +:+ x = b +:+ "_" +:+ y → a = b ∧ x = y.
Proof.
  revert b. induction a as [|c a IH]; intros [|d b] Ha Hb E.
  - by injection E.
  - rewrite str_app_cons in E. injection E as <- _. done.
  - rewrite str_app_cons in E. injection E as -> _. done.
  - rewrite !str_app_cons in E. injection E as -> E.
    simpl in Ha, Hb. apply andb_true_iff in Ha as [_ Ha], Hb as [_ Hb].
    destruct (IH _ Ha Hb E) as [-> ->]. done.
Qed.

Lemma pretty_underscore_inj (i j : nat) x y :
  pretty i +:+ "_" +:+ x = pretty j +:+ "_" +:+ y → i = j ∧ x = y.
Proof.
  intros E. apply digits_underscore_inj in E as [E ->]; auto using pretty_nat_digits.
  split; [|done]. by apply (inj pretty).
Qed.


(** ** The literal fragment of regular expressions *)


Lemma RegExp_literal_escapeRegExp s : RegExp_literal (escapeRegExp s) = Some s.
Proof.
  induction s as [|c s IH]; [done|]. simpl.
  destruct (syntax_char c) eqn:Hc.
  - simpl. rewrite Hc, IH. done.
  - simpl. rewrite Hc, IH. case_decide as E; [|done].
    subst c. vm_compute in Hc. done.
Qed.

(** Escaping always gives a source of the fragment, which matches the
    escaped text and nothing else. *)
Lemma RegExp_new_escapeRegExp s : RegExp_new (escapeRegExp s) = Ok {| literal := s |}.
Proof. unfold RegExp_new. by rewrite RegExp_literal_escapeRegExp. Qed.

Lemma GetSubstitution_plain matched before after template :
  mem "$" template = false → GetSubstitution matched before after template = template.
Proof.
  induction template as [|c t IH]; [done|]. simpl.
  destruct (decide (c = "$"%char)); [done|]. intros H. by rewrite IH.
Qed.

Lemma replace_go_unfold lit template before skip s :
  replace_go lit template before skip s =
  match s with
  | "" =>
      match skip with
      | 0 => if startsWith lit "" then GetSubstitution lit before "" template else ""
      | S _ => ""
      end
  | String c s' =>
      let before' := before +:+ String c "" in
      match skip with
      | S k => replace_go lit template before' k s'
      | 0 =>
          if startsWith lit s then
            GetSubstitution lit before (drop (String.length lit) s) template +:+
            match String.length lit with
            | 0 => String c (replace_go lit template before' 0 s')
            | S k => replace_go lit template before' k s'
            end
          else String c (replace_go lit template before' 0 s')
      end
  end.
Proof. by destruct s. Qed.

(** The characters of a match are consumed without being copied. *)
Lemma replace_go_skip lit template p v before :
  replace_go lit template before (String.length p) (p +:+ v)
  = replace_go lit template (before +:+ p) 0 v.
Proof.
  revert before. induction p as [|c p IH]; intros before.
  - by rewrite str_app_nil_r.
  - rewrite str_app_cons, replace_go_unfold. simpl. rewrite IH.
    by rewrite str_app_assoc.
Qed.

Section Literal.
Variables (c0 : ascii) (p0 template : string).
Abbreviation lit := (String c0 p0).

Lemma replace_go_nil before : replace_go lit template before 0 "" = "".
Proof. done. Qed.

Lemma replace_go_hit before v :
  replace_go lit template before 0 (lit +:+ v)
  = GetSubstitution lit before v template +:+ replace_go lit template (before +:+ lit) 0 v.
Proof.
  rewrite str_app_cons, replace_go_unfold. cbv zeta.
  rewrite <- (str_app_cons c0 p0 v), startsWith_app, str_drop_app. f_equal.
  cbn [String.length]. rewrite replace_go_skip. by rewrite str_app_assoc.
Qed.

Lemma replace_go_miss before c s :
  startsWith lit (String c s) = false →
  replace_go lit template before 0 (String c s)
  = String c (replace_go lit template (before +:+ String c "") 0 s).
Proof. intros H. rewrite replace_go_unfold. cbv zeta. by rewrite H. Qed.

End Literal.

Lemma Replaced_cons pat rep c s out :
  startsWith pat (String c s) = false →
  Replaced pat rep s out → Replaced pat rep (String c s) (String c out).
Proof.
  intros Hmiss H. destruct H as [s Hno|u v out Hleft H].
  - apply Replaced_none. intros [Hs|Hs]%occurs_cons_inv; congruence.
  - rewrite <- !(str_app_cons c u). apply Replaced_hit; [|done].
    intros [|d u'] v' E.
    + exfalso. change ("" +:+ pat +:+ v') with (pat +:+ v') in E.
      rewrite <- (str_app_cons c u), E, startsWith_app in Hmiss. done.
    + rewrite !str_app_cons in E. injection E as _ E. simpl. apply Hleft in E. lia.
Qed.

Lemma Replaced_here pat rep v out :
  Replaced pat rep v out → Replaced pat rep (pat +:+ v) (rep +:+ out).
Proof.
  intros H. refine (Replaced_hit pat rep "" v out _ H). intros. simpl. lia.
Qed.

Lemma replace_go_Replaced c0 p0 template :
  mem "$" template = false →
  ∀ n s before, String.length s = n →
    Replaced (String c0 p0) template s (replace_go (String c0 p0) template before 0 s).
Proof.
  intros Hplain n. induction (lt_wf n) as [n _ IH]. intros s before Hn.
  destruct s as [|c s].
  - apply Replaced_none. intros (u & v & E). destruct u; discriminate.
  - destruct (startsWith (String c0 p0) (String c s)) eqn:Hs.
    + apply startsWith_inv in Hs as [v Hv]. rewrite Hv.
      rewrite replace_go_hit, GetSubstitution_plain by done.
      apply Replaced_here.
      eapply IH; [|done].
      rewrite <- Hn, Hv, str_length_app. simpl. lia.
    + rewrite replace_go_miss by done. apply Replaced_cons; [done|].
      eapply IH; [|done]. simpl in Hn. lia.
Qed.

(** A global replacement by a literal pattern and a template without [$]
    replaces the occurrences of the pattern from the left. *)
Lemma replace_Replaced pat template s :
  pat ≠ "" → mem "$" template = false →
  Replaced pat template s (replace {| literal := pat |} template s).
Proof.
  intros Hpat Hplain. destruct pat as [|c0 p0]; [done|].
  by eapply replace_go_Replaced.
Qed.

Lemma Replaced_absent pat rep s out : ¬ occurs pat s → Replaced pat rep s out → out = s.
Proof.
  intros Hno H. destruct H as [|u v out _ _]; [done|].
  destruct Hno. by exists u, v.
Qed.



(** ** Exceptions and loops *)

Lemma bind_Ok {A B} (r : Result A) (f : A → Result B) b :
  bind r f = Ok b → ∃ a, r = Ok a ∧ f a = Ok b.
Proof. destruct r as [a|e]; [|done]. intros H. by exists a. Qed.

Lemma bind_ext {A B} (r : Result A) (f g : A → Result B) :
  (∀ a, f a = g a) → bind r f = bind r g.
Proof. intros H. destruct r; [apply H|done]. Qed.

Lemma for_of_app {A St} (f : St → A → Result St) l1 l2 s :
  for_of f (l1 ++ l2) s = bind (for_of f l1 s) (for_of f l2).
Proof.
  revert s. induction l1 as [|x l1 IH]; intros s; [done|]. simpl.
  destruct (f s x); [apply IH|done].
Qed.

(** An element on which the body changes nothing can be left out. *)
Lemma for_of_skip {A St} (f : St → A → Result St) l1 x l2 s :
  (∀ s', f s' x = Ok s') → for_of f (l1 ++ x :: l2) s = for_of f (l1 ++ l2) s.
Proof.
  intros Hx. rewrite !for_of_app. apply bind_ext. intros s'. simpl. by rewrite Hx.
Qed.

Lemma for_index_app {A St} (f : St → nat → A → Result St) i l1 l2 s :
  for_index f i (l1 ++ l2) s = bind (for_index f i l1 s) (for_index f (i + length l1) l2).
Proof.
  revert i s. induction l1 as [|x l1 IH]; intros i s; simpl.
  - by rewrite Nat.add_0_r.
  - destruct (f s i x); [|done]. simpl. rewrite IH. by rewrite Nat.add_succ_r.
Qed.

(** A loop whose body pushes at most one element pushes, in order, what its
    body emits. *)
Lemma for_of_emitted {A T} (f : list T → A → Result (list T)) :
  (∀ acc x acc', f acc x = Ok acc' → acc' = acc ++ option_list (emitted f x)) →
  ∀ l acc r, for_of f l acc = Ok r → r = acc ++ omap (emitted f) l.
Proof.
  intros Hstep l. induction l as [|x l IH]; intros acc r H; simpl in H.
  - injection H as <-. by rewrite app_nil_r.
  - apply bind_Ok in H as (acc' & Hx & H). apply Hstep in Hx as ->.
    apply IH in H as ->. simpl. destruct (emitted f x); simpl.
    + by rewrite <- app_assoc.
    + by rewrite app_nil_r.
Qed.

(** ** The loop over the books *)

Lemma processBook_view st i epubBuffer :
  processBook st i epubBuffer = bind (viewBook epubBuffer) (extractView st i).
Proof.
  unfold processBook, viewBook, extractView.
  destruct (openPackage epubBuffer) as [[[zip baseDir] opfData]|]; simpl; [|done].
  destruct (opfMetadata opfData) as [[metadata|]|]; simpl; try done.
  destruct (opfManifest opfData) as [manifest|]; simpl; [|done].
  destruct (opfSpine opfData) as [spine|]; simpl; [|done].
  destruct manifest as [manifest|]; simpl; [|done].
  destruct (for_of addManifestItem manifest ∅); simpl; [|done].
  destruct spine as [spine|]; simpl; done.
Qed.

Lemma extractChapter_emitted i zip baseDir manifestMap acc x acc' :
  extractChapter i zip baseDir manifestMap acc x = Ok acc' →
  acc' = acc ++ option_list (emitted (extractChapter i zip baseDir manifestMap) x).
Proof.
  unfold emitted, extractChapter, push, bind, defined. destruct (Xml.attrs x); simpl; [|done].
  repeat (case_match; simpl; try done).
  all: intros; simplify_eq; simpl; rewrite ?app_nil_r; try done.
Qed.

Lemma extractImage_emitted i zip baseDir acc x acc' :
  extractImage i zip baseDir acc x = Ok acc' →
  acc' = acc ++ option_list (emitted (extractImage i zip baseDir) x).
Proof.
  unfold emitted, extractImage, push, bind, defined. destruct (Xml.attrs x); simpl; [|done].
  repeat (case_match; simpl; try done).
  all: intros; simplify_eq; simpl; rewrite ?app_nil_r; try done.
Qed.

Lemma extractStyle_emitted i zip baseDir acc x acc' :
  extractStyle i zip baseDir acc x = Ok acc' →
  acc' = acc ++ option_list (emitted (extractStyle i zip baseDir) x).
Proof.
  unfold emitted, extractStyle, push, bind, defined. destruct (Xml.attrs x); simpl; [|done].
  repeat (case_match; simpl; try done).
  all: intros; simplify_eq; simpl; rewrite ?app_nil_r; try done.
Qed.

Lemma extractFont_emitted i zip baseDir acc x acc' :
  extractFont i zip baseDir acc x = Ok acc' →
  acc' = acc ++ option_list (emitted (extractFont i zip baseDir) x).
Proof.
  unfold emitted, extractFont, push, bind, defined. destruct (Xml.attrs x); simpl; [|done].
  repeat (case_match; simpl; try done).
  all: intros; simplify_eq; simpl; rewrite ?app_nil_r; try done.
Qed.

(** One book appends its own records to the arrays, and nothing else. *)
Lemma extractView_spec st i v st' :
  extractView st i v = Ok st' →
  allChapters st' = allChapters st ++ viewChapters i v
  ∧ allImages st' = allImages st ++ viewImages i v
  ∧ allStyles st' = allStyles st ++ viewStyles i v
  ∧ allFonts st' = allFonts st ++ viewFonts i v
  ∧ bookMetadata st' = bookMetadata st ++ viewMetadata i v
  ∧ combinedMetadata st' =
      if decide (i = 0) then firstBookMetadata (view_metadata v) (combinedMetadata st)
      else combinedMetadata st.
Proof.
  unfold extractView. intros H.
  apply bind_Ok in H as (cs & Hc & H). apply bind_Ok in H as (ims & Hi & H).
  apply bind_Ok in H as (ss & Hs & H). apply bind_Ok in H as (fs & Hf & H).
  injection H as <-. simpl.
  apply for_of_emitted in Hc; [|apply extractChapter_emitted].
  apply for_of_emitted in Hi; [|apply extractImage_emitted].
  apply for_of_emitted in Hs; [|apply extractStyle_emitted].
  apply for_of_emitted in Hf; [|apply extractFont_emitted].
  done.
Qed.

(** The arrays after the loop are the contributions of the books, one book
    after the other in the order of the input. *)
Lemma for_index_processBook_views epubBuffers : ∀ i st st',
  for_index processBook i epubBuffers st = Ok st' →
  ∃ views,
    Forall2 (λ epubBuffer v, viewBook epubBuffer = Ok v) epubBuffers views
    ∧ allChapters st' = allChapters st ++ perBook viewChapters i views
    ∧ allImages st' = allImages st ++ perBook viewImages i views
    ∧ allStyles st' = allStyles st ++ perBook viewStyles i views
    ∧ allFonts st' = allFonts st ++ perBook viewFonts i views
    ∧ bookMetadata st' = bookMetadata st ++ perBook viewMetadata i views
    ∧ combinedMetadata st' =
        match views with
        | v :: _ =>
            if decide (i = 0) then firstBookMetadata (view_metadata v) (combinedMetadata st)
            else combinedMetadata st
        | [] => combinedMetadata st
        end.
Proof.
  induction epubBuffers as [|b bs IH]; intros i st st' H; simpl in H.
  - injection H as <-. exists []. rewrite !app_nil_r. by repeat split.
  - apply bind_Ok in H as (st1 & H1 & H). rewrite processBook_view in H1.
    apply bind_Ok in H1 as (v & Hv & H1).
    apply extractView_spec in H1 as (Hc & Hi & Hs & Hf & Hb & Hm).
    apply IH in H as (views & Hviews & Hc' & Hi' & Hs' & Hf' & Hb' & Hm').
    exists (v :: views). split; [by constructor|]. simpl.
    rewrite Hc', Hi', Hs', Hf', Hb', Hc, Hi, Hs, Hf, Hb, <- !app_assoc.
    repeat split. rewrite Hm', Hm. by destruct views.
Qed.

Lemma combineEpubs_inv epubBuffers out :
  combineEpubs epubBuffers = Ok out →
  ∃ st cs,
    extractBooks epubBuffers = Ok st
    ∧ updateChapters (allImages st) (allStyles st) (allChapters st) = Ok cs
    ∧ out = assemble (set_allChapters st cs).
Proof.
  unfold combineEpubs. intros H.
  apply bind_Ok in H as (st & Hst & H). apply bind_Ok in H as (cs & Hcs & H).
  injection H as <-. by exists st, cs.
Qed.

(** ** The shape of identifiers and paths *)

Lemma perBook_elem {T} (F : nat → BookView → list T) views : ∀ i x,
  x ∈ perBook F i views → ∃ j v, views !! j = Some v ∧ x ∈ F (i + j) v.
Proof.
  induction views as [|v views IH]; intros i x Hx; simpl in Hx.
  - by apply elem_of_nil in Hx.
  - apply elem_of_app in Hx as [Hx|Hx].
    + exists 0, v. by rewrite Nat.add_0_r.
    + apply IH in Hx as (j & w & Hj & Hx). exists (S j), w.
      by rewrite Nat.add_succ_r.
Qed.

Lemma emitted_chapter i zip baseDir manifestMap x c :
  emitted (extractChapter i zip baseDir manifestMap) x = Some c →
  ∃ key, spineKey x = Some key
    ∧ Chapter.id c = entryId KChapter i key
    ∧ Chapter.href c = "OEBPS/Text/" +:+ Chapter.id c +:+ ".xhtml"
    ∧ Chapter.bookIndex c = i.
Proof.
  unfold emitted, extractChapter, push, bind, defined, spineKey.
  destruct (Xml.attrs x) as [a|]; simpl; [|done].
  repeat (case_match; simpl; try done).
  all: intros; simplify_eq. by eexists.
Qed.

Lemma emitted_image i zip baseDir x a :
  emitted (extractImage i zip baseDir) x = Some a →
  ∃ key, manifestKey x = Some key ∧ Asset.bookIndex a = i ∧ shaped key (assetEntry KImage a).
Proof.
  unfold emitted, extractImage, push, bind, defined, manifestKey.
  destruct (Xml.attrs x) as [g|]; simpl; [|done].
  repeat (case_match; simpl; try done).
  all: intros; simplify_eq. eexists. repeat split. by eexists.
Qed.

Lemma emitted_style i zip baseDir x a :
  emitted (extractStyle i zip baseDir) x = Some a →
  ∃ key, manifestKey x = Some key ∧ Asset.bookIndex a = i ∧ shaped key (assetEntry KStyle a).
Proof.
  unfold emitted, extractStyle, push, bind, defined, manifestKey.
  destruct (Xml.attrs x) as [g|]; simpl; [|done].
  repeat (case_match; simpl; try done).
  all: intros; simplify_eq. eexists. repeat split. by eexists.
Qed.

Lemma emitted_font i zip baseDir x a :
  emitted (extractFont i zip baseDir) x = Some a →
  ∃ key, manifestKey x = Some key ∧ Asset.bookIndex a = i ∧ shaped key (assetEntry KFont a).
Proof.
  unfold emitted, extractFont, push, bind, defined, manifestKey.
  destruct (Xml.attrs x) as [g|]; simpl; [|done].
  repeat (case_match; simpl; try done).
  all: intros; simplify_eq. eexists. repeat split. by eexists.
Qed.

Lemma shaped_chapter key c :
  Chapter.id c = entryId KChapter (Chapter.bookIndex c) key →
  Chapter.href c = "OEBPS/Text/" +:+ Chapter.id c +:+ ".xhtml" →
  shaped key (chapterEntry c).
Proof. intros Hid Hhref. split; [done|]. by exists ".xhtml". Qed.

(** ** The reference rewriter *)

Lemma replace_go_absent c0 p0 template s : ∀ before,
  ¬ occurs (String c0 p0) s → replace_go (String c0 p0) template before 0 s = s.
Proof.
  induction s as [|c s IH]; intros before Hno; [done|].
  rewrite replace_go_miss.
  - rewrite IH; [done|]. intros (u & v & ->). apply Hno. by exists (String c u), v.
  - destruct (startsWith _ _) eqn:E; [|done].
    destruct Hno. apply startsWith_inv in E as [v ->]. by exists "", v.
Qed.

Lemma literalStep_absent content asset :
  Asset.originalHref asset ≠ "" → ¬ occurs (Asset.originalHref asset) content →
  literalStep content asset = content.
Proof.
  unfold literalStep, replace. cbn [literal].
  destruct (Asset.originalHref asset); [done|]. intros _. apply replace_go_absent.
Qed.

Lemma updateReference_spec chapter content asset :
  updateReference chapter content asset =
  Ok (if decide (Asset.bookIndex asset = Chapter.bookIndex chapter)
      then literalStep content asset else content).
Proof.
  unfold updateReference. case_decide; [|done].
  by rewrite RegExp_new_escapeRegExp.
Qed.

Lemma for_of_updateReference chapter l : ∀ content,
  for_of (updateReference chapter) l content =
  Ok (foldl literalStep content
        (filter (λ a, Asset.bookIndex a = Chapter.bookIndex chapter) l)).
Proof.
  induction l as [|a l IH]; intros content; [done|]. simpl.
  rewrite updateReference_spec. simpl. rewrite IH, filter_cons.
  by case_decide.
Qed.

(** The rewriter never throws, and only the assets of the chapter's own book
    contribute to the rewritten content. *)
Lemma updateChapter_spec allImages allStyles chapter :
  updateChapter allImages allStyles chapter = Ok (rewrittenBy allImages allStyles chapter).
Proof.
  unfold updateChapter, rewrittenBy, sameBook.
  rewrite for_of_updateReference. simpl. rewrite for_of_updateReference. simpl.
  by rewrite foldl_app.
Qed.

Lemma updateChapters_spec allImages allStyles allChapters :
  updateChapters allImages allStyles allChapters
  = Ok (rewrittenBy allImages allStyles <$> allChapters).
Proof.
  unfold updateChapters. induction allChapters as [|c cs IH]; [done|]. simpl.
  by rewrite updateChapter_spec, IH.
Qed.

Lemma chapterEntry_rewrittenBy allImages allStyles (allChapters : list Chapter.t) :
  chapterEntry <$> (rewrittenBy allImages allStyles <$> allChapters)
  = chapterEntry <$> allChapters.
Proof. rewrite <- list_fmap_compose. by apply list_fmap_ext. Qed.

Lemma relativePath_href asset p :
  Asset.href asset = "OEBPS/" +:+ p → relativePath asset = "../" +:+ p.
Proof. unfold relativePath. intros ->. by rewrite replace_first_prefix. Qed.

Lemma views_shaped views : ∀ i,
  Forall (λ c, ∃ key, shaped key (chapterEntry c)) (perBook viewChapters i views)
  ∧ Forall (λ a, ∃ key, shaped key (assetEntry KImage a)) (perBook viewImages i views)
  ∧ Forall (λ a, ∃ key, shaped key (assetEntry KStyle a)) (perBook viewStyles i views)
  ∧ Forall (λ a, ∃ key, shaped key (assetEntry KFont a)) (perBook viewFonts i views).
Proof.
  intros i. repeat split; apply Forall_forall; intros x Hx;
    apply perBook_elem in Hx as (j & v & _ & Hx);
    apply list_elem_of_omap in Hx as (y & _ & Hx).
  - apply emitted_chapter in Hx as (key & _ & Hid & Hhref & Hi).
    exists key. apply shaped_chapter; [by rewrite Hi|done].
  - apply emitted_image in Hx as (key & _ & _ & Hx). by exists key.
  - apply emitted_style in Hx as (key & _ & _ & Hx). by exists key.
  - apply emitted_font in Hx as (key & _ & _ & Hx). by exists key.
Qed.

Lemma extractBooks_views epubBuffers st :
  extractBooks epubBuffers = Ok st →
  ∃ views,
    Forall2 (λ epubBuffer v, viewBook epubBuffer = Ok v) epubBuffers views
    ∧ allChapters st = perBook viewChapters 0 views
    ∧ allImages st = perBook viewImages 0 views
    ∧ allStyles st = perBook viewStyles 0 views
    ∧ allFonts st = perBook viewFonts 0 views
    ∧ bookMetadata st = perBook viewMetadata 0 views
    ∧ combinedMetadata st =
        match views with
        | v :: _ => firstBookMetadata (view_metadata v) initialMetadata
        | [] => initialMetadata
        end.
Proof.
  intros H. apply for_index_processBook_views in H
    as (views & Hviews & Hc & Hi & Hs & Hf & Hb & Hm).
  exists views. by repeat split.
Qed.

(** C2: a chapter is rewritten in the same way under any two arrays of
    images and any two arrays of styles that hold the same assets of the
    chapter's own book: the assets of the other books, present or not and
    whatever their original paths, have no effect on the rewritten content.
    Fonts are not an input of the rewriter at all. *)
Theorem rewriter_ignores_other_books (chapter : Chapter.t)
    (allImages allImages' allStyles allStyles' : list Asset.t) :
  filter (λ a, Asset.bookIndex a = Chapter.bookIndex chapter) allImages
  = filter (λ a, Asset.bookIndex a = Chapter.bookIndex chapter) allImages' →
  filter (λ a, Asset.bookIndex a = Chapter.bookIndex chapter) allStyles
  = filter (λ a, Asset.bookIndex a = Chapter.bookIndex chapter) allStyles' →
  updateChapter allImages allStyles chapter = updateChapter allImages' allStyles' chapter.
Proof.
  intros Hi Hs. rewrite !updateChapter_spec. unfold rewrittenBy, sameBook.
  by rewrite Hi, Hs.
Qed.

(** C4, amended: after a successful merge every chapter is the extracted
    chapter rewritten by the images and then the styles of its own book, in
    the order of the arrays; fonts take no part.  Each step replaces, from
    the left, the occurrences of the asset's non-empty original path by
    [../] followed by the asset's path under [OEBPS/], when that text has no
    dollar sign. *)
Theorem rewriter_replaces_images_and_styles (epubBuffers : list Buffer) (out : Output) :
  combineEpubs epubBuffers = Ok out →
  ∃ st,
    extractBooks epubBuffers = Ok st
    ∧ images out = allImages st ∧ styles out = allStyles st ∧ fonts out = allFonts st
    ∧ chapters out = rewrittenBy (images out) (styles out) <$> allChapters st
    ∧ ∀ a, a ∈ images out ++ styles out →
        ∃ p, Asset.href a = "OEBPS/" +:+ p
          ∧ relativePath a = "../" +:+ p
          ∧ ∀ content,
              Asset.originalHref a ≠ "" → mem "$" (relativePath a) = false →
              Replaced (Asset.originalHref a) ("../" +:+ p) content (literalStep content a).
Proof.
  intros H. apply combineEpubs_inv in H as (st & cs & Hst & Hcs & ->).
  rewrite updateChapters_spec in Hcs. injection Hcs as <-.
  exists st. repeat split; try done. simpl. intros a Ha.
  destruct (extractBooks_views _ _ Hst) as (views & _ & _ & Hi & Hs & _).
  destruct (views_shaped views 0) as (_ & Himg & Hsty & _).
  rewrite <- Hi in Himg. rewrite <- Hs in Hsty.
  assert (∃ p, Asset.href a = "OEBPS/" +:+ p) as [p Hp].
  { apply elem_of_app in Ha as [Ha|Ha].
    - eapply Forall_forall in Himg as (key & _ & rest & Hhref); [|done]. by eexists.
    - eapply Forall_forall in Hsty as (key & _ & rest & Hhref); [|done]. by eexists. }
  exists p. pose proof (relativePath_href _ _ Hp) as Hrel. repeat split; try done.
  intros content Hne Hplain. rewrite <- Hrel. unfold literalStep.
  by apply replace_Replaced.
Qed.


(** ** The spine *)

Lemma pushAll_spec {A B} (f : A → B) l : ∀ items, pushAll f l items = items ++ (f <$> l).
Proof.
  unfold pushAll, push. induction l as [|x l IH]; intros items; simpl.
  - by rewrite app_nil_r.
  - by rewrite IH, <- app_assoc.
Qed.

Lemma fmap_perBook {T U} (f : T → U) (F : nat → BookView → list T) views : ∀ i,
  f <$> perBook F i views = perBook (λ i v, f <$> F i v) i views.
Proof.
  induction views as [|v views IH]; intros i; [done|]. simpl.
  by rewrite fmap_app, IH.
Qed.

Lemma perBook_ext {T} (F G : nat → BookView → list T) views :
  (∀ i v, F i v = G i v) → ∀ i, perBook F i views = perBook G i views.
Proof.
  intros HFG. induction views as [|v views IH]; intros i; [done|]. simpl.
  by rewrite HFG, IH.
Qed.

Lemma emitted_chapter_id i v x :
  Chapter.id <$> emitted (extractChapter i (view_zip v) (view_baseDir v) (view_manifestMap v)) x
  = if resolvable v x then entryId KChapter i <$> spineKey x else None.
Proof.
  unfold emitted, extractChapter, resolvable, spineKey, bind, defined, push.
  destruct (Xml.attrs x) as [a|]; simpl; [|done].
  destruct (view_manifestMap v !! _) as [manifestItem|]; simpl; [|done].
  case_decide; [rewrite bool_decide_eq_true_2 by done|rewrite bool_decide_eq_false_2 by done];
    simpl; [|done].
  by destruct (view_zip v !! _).
Qed.

Lemma emitted_chapter_book i zip baseDir manifestMap x c :
  emitted (extractChapter i zip baseDir manifestMap) x = Some c → Chapter.bookIndex c = i.
Proof. intros H. by apply emitted_chapter in H as (? & _ & _ & _ & ?). Qed.

(** The chapters of a book are those of the resolvable entries of its
    spine, in the order of the spine. *)
Lemma viewChapters_ids i v : Chapter.id <$> viewChapters i v = spineChapterIds i v.
Proof.
  unfold viewChapters, spineChapterIds.
  induction (view_spine v) as [|x l IH]; [done|].
  rewrite filter_cons.
  pose proof (emitted_chapter_id i v x) as Hx.
  destruct (resolvable v x) eqn:Hr.
  - rewrite decide_True by done. simpl.
    destruct (emitted _ x) as [c|], (spineKey x) as [key|]; simplify_eq/=; [|done].
    f_equal; [done|exact IH].
  - rewrite decide_False by done. simpl.
    destruct (emitted _ x) as [c|]; simplify_eq/=. exact IH.
Qed.

Lemma viewChapters_books i v :
  Chapter.bookIndex <$> viewChapters i v = replicate (length (spineChapterIds i v)) i.
Proof.
  rewrite <- viewChapters_ids, length_fmap. unfold viewChapters.
  induction (view_spine v) as [|x l IH]; [done|]. simpl.
  destruct (emitted _ x) as [c|] eqn:Hx; [|exact IH]. simpl.
  f_equal; [by eapply emitted_chapter_book|exact IH].
Qed.

Lemma combineEpubs_spine epubBuffers out :
  combineEpubs epubBuffers = Ok out →
  spine (opfContent out) = "toc-page" :: (Chapter.id <$> chapters out).
Proof.
  intros H. apply combineEpubs_inv in H as (st & cs & _ & _ & ->). simpl.
  by rewrite pushAll_spec.
Qed.

Lemma dangling_not_resolvable v itemref : dangling v itemref → resolvable v itemref = false.
Proof.
  intros (a & Ha & Hdangling). unfold resolvable, spineKey. rewrite Ha. simpl.
  destruct Hdangling as [->|(manifestItem & -> & Hfile)]; [done|].
  rewrite Hfile. apply andb_false_iff. right. apply bool_decide_eq_false_2.
  by intros [? ?].
Qed.

(** C3: after a successful merge the spine is the table-of-contents page
    followed by the chapters of the first book, then those of the second,
    and so on in the order of the input; the chapters of a book are the
    resolvable entries of its own spine in the order of that spine.  The
    spine has one entry more than there are chapters.  (This holds for any
    number of books.) *)
Theorem spine_groups_books (epubBuffers : list Buffer) (out : Output) :
  combineEpubs epubBuffers = Ok out →
  ∃ views,
    Forall2 (λ epubBuffer v, viewBook epubBuffer = Ok v) epubBuffers views
    ∧ spine (opfContent out) = "toc-page" :: perBook spineChapterIds 0 views
    ∧ Chapter.id <$> chapters out = perBook spineChapterIds 0 views
    ∧ Chapter.bookIndex <$> chapters out
      = perBook (λ i v, replicate (length (spineChapterIds i v)) i) 0 views
    ∧ length (spine (opfContent out)) = 1 + length (chapters out).
Proof.
  intros H. apply combineEpubs_inv in H as (st & cs & Hst & Hcs & ->).
  rewrite updateChapters_spec in Hcs. injection Hcs as <-.
  destruct (extractBooks_views _ _ Hst) as (views & Hviews & Hc & _).
  exists views. split; [done|]. simpl.
  assert (Chapter.id <$> (rewrittenBy (allImages st) (allStyles st) <$> allChapters st)
          = perBook spineChapterIds 0 views) as Hids.
  { rewrite <- list_fmap_compose, Hc, fmap_perBook.
    apply perBook_ext. intros. apply viewChapters_ids. }
  rewrite pushAll_spec, Hids. repeat split.
  - rewrite <- list_fmap_compose, Hc, fmap_perBook.
    apply perBook_ext. intros. apply viewChapters_books.
  - simpl. by rewrite <- Hids, !length_fmap.
Qed.

Lemma for_of_ext {A St} (f g : St → A → Result St) l :
  (∀ x, x ∈ l → ∀ s, f s x = g s x) → ∀ s, for_of f l s = for_of g l s.
Proof.
  induction l as [|x l IH]; intros Hfg s; [done|]. simpl.
  rewrite Hfg by left. apply bind_ext. intros s'. apply IH.
  intros y Hy. apply Hfg. by right.
Qed.

(** The manifest map holds attribute objects of manifest items only. *)
Lemma addManifestItem_values manifest : ∀ m0 manifestMap,
  for_of addManifestItem manifest m0 = Ok manifestMap →
  ∀ key a, manifestMap !! key = Some a →
    m0 !! key = Some a ∨ ∃ item, item ∈ manifest ∧ Xml.attrs item = Some a.
Proof.
  induction manifest as [|item manifest IH]; intros m0 manifestMap H key a Ha; simpl in H.
  - injection H as <-. by left.
  - apply bind_Ok in H as (m1 & H1 & H). unfold addManifestItem in H1.
    apply bind_Ok in H1 as (b & Hb & H1). injection H1 as <-.
    destruct (Xml.attrs item) as [b'|] eqn:Hitem; [|done]. injection Hb as ->.
    destruct (IH _ _ H _ _ Ha) as [Hm|(item' & Hin & Hitem')].
    + destruct (decide (to_string (b !! "id") = key)) as [<-|Hne].
      * rewrite lookup_insert_eq in Hm. injection Hm as ->.
        right. exists item. split; [left|done].
      * rewrite lookup_insert_ne in Hm by done. by left.
    + right. exists item'. split; [by right|done].
Qed.

Lemma viewBook_manifestMap epubBuffer v :
  viewBook epubBuffer = Ok v →
  for_of addManifestItem (view_manifest v) ∅ = Ok (view_manifestMap v).
Proof.
  unfold viewBook. intros H.
  apply bind_Ok in H as ([[zip baseDir] opfData] & _ & H).
  apply bind_Ok in H as (metadata & _ & H).
  apply bind_Ok in H as (manifest & _ & H).
  apply bind_Ok in H as (spine & _ & H).
  apply bind_Ok in H as (manifest' & _ & H).
  apply bind_Ok in H as (manifestMap & Hm & H).
  apply bind_Ok in H as (spine' & _ & H).
  injection H as <-. done.
Qed.

(** The extraction of a book without an entry of its spine that the chapter
    loop skips. *)
Lemma extractView_skip st i v v' before after itemref :
  view_spine v = before ++ itemref :: after →
  view_spine v' = before ++ after →
  view_baseDir v' = view_baseDir v →
  view_metadata v' = view_metadata v →
  view_manifest v' = view_manifest v →
  view_manifestMap v = view_manifestMap v' →
  for_of addManifestItem (view_manifest v) ∅ = Ok (view_manifestMap v) →
  sameFiles v v' →
  (∀ i allChapters,
     extractChapter i (view_zip v) (view_baseDir v) (view_manifestMap v) allChapters itemref
     = Ok allChapters) →
  extractView st i v = extractView st i v'.
Proof.
  intros Hspine Hspine' HbaseDir Hmetadata Hmanifest Hmap' Hmap Hfiles Hskip.
  assert (∀ item b, item ∈ view_manifest v → Xml.attrs item = Some b →
    view_zip v !! (view_baseDir v +:+ to_string (b !! "href"))
    = view_zip v' !! (view_baseDir v +:+ to_string (b !! "href"))) as Hsame.
  { intros item b Hin Hb. unfold sameFiles in Hfiles.
    eapply Forall_forall in Hfiles; [|done]. by rewrite Hb in Hfiles. }
  unfold extractView. rewrite Hspine, Hspine', HbaseDir, Hmetadata, Hmanifest, <- Hmap'.
  rewrite for_of_skip by apply Hskip.
  rewrite (for_of_ext
    (extractChapter i (view_zip v) (view_baseDir v) (view_manifestMap v))
    (extractChapter i (view_zip v') (view_baseDir v) (view_manifestMap v))).
  2:{ intros x _ s. unfold extractChapter.
      destruct (Xml.attrs x) as [b|]; simpl; [|done].
      destruct (view_manifestMap v !! _) as [manifestItem|] eqn:Hitem; [|done].
      destruct (addManifestItem_values _ _ _ Hmap _ _ Hitem)
        as [Hempty|(item & Hin & Hattrs)]; [by rewrite lookup_empty in Hempty|].
      by rewrite (Hsame _ _ Hin Hattrs). }
  apply bind_ext. intros cs.
  rewrite (for_of_ext (extractImage i (view_zip v) (view_baseDir v))
             (extractImage i (view_zip v') (view_baseDir v))).
  2:{ intros x Hin s. unfold extractImage.
      destruct (Xml.attrs x) as [b|] eqn:Hb; simpl; [|done].
      by rewrite (Hsame _ _ Hin Hb). }
  apply bind_ext. intros ims.
  rewrite (for_of_ext (extractStyle i (view_zip v) (view_baseDir v))
             (extractStyle i (view_zip v') (view_baseDir v))).
  2:{ intros x Hin s. unfold extractStyle.
      destruct (Xml.attrs x) as [b|] eqn:Hb; simpl; [|done].
      by rewrite (Hsame _ _ Hin Hb). }
  apply bind_ext. intros ss.
  rewrite (for_of_ext (extractFont i (view_zip v) (view_baseDir v))
             (extractFont i (view_zip v') (view_baseDir v))).
  2:{ intros x Hin s. unfold extractFont.
      destruct (Xml.attrs x) as [b|] eqn:Hb; simpl; [|done].
      by rewrite (Hsame _ _ Hin Hb). }
  done.
Qed.

(** C7: an [itemref] of a spine whose [idref] the manifest does not have, or
    whose item has no file in the archive, leaves the chapter array as it
    is and throws nothing, and it is not among the resolvable entries that
    make the chapters of the book.  So the merge of a list of books in
    which one spine has such an entry has the same outcome (success or
    failure, the chapters, the spine and every other part of the output) as
    the merge in which that book is replaced by one that differs in that
    its spine does not have this entry; and when it succeeds the spine has
    one entry for the table of contents and one for each extracted
    chapter. *)
Theorem dangling_itemref_skipped (epubBuffers1 epubBuffers2 : list Buffer)
    (epubBuffer epubBuffer' : Buffer) (v v' : BookView)
    (before after : list xml) (itemref : xml) :
  viewBook epubBuffer = Ok v →
  viewBook epubBuffer' = Ok v' →
  view_spine v = before ++ itemref :: after →
  view_spine v' = before ++ after →
  view_baseDir v' = view_baseDir v →
  view_metadata v' = view_metadata v →
  view_manifest v' = view_manifest v →
  sameFiles v v' →
  dangling v itemref →
  (∀ i allChapters,
     extractChapter i (view_zip v) (view_baseDir v) (view_manifestMap v) allChapters itemref
     = Ok allChapters)
  ∧ resolvable v itemref = false
  ∧ combineEpubs (epubBuffers1 ++ epubBuffer :: epubBuffers2)
    = combineEpubs (epubBuffers1 ++ epubBuffer' :: epubBuffers2)
  ∧ ∀ out,
      combineEpubs (epubBuffers1 ++ epubBuffer :: epubBuffers2) = Ok out →
      length (spine (opfContent out)) = 1 + length (chapters out).
Proof.
  intros Hv Hv' Hspine Hspine' HbaseDir Hmetadata Hmanifest Hfiles Hdang.
  pose proof (dangling_not_resolvable _ _ Hdang) as Hres.
  destruct Hdang as (a & Ha & Hdangling).
  assert (∀ i allChapters,
    extractChapter i (view_zip v) (view_baseDir v) (view_manifestMap v) allChapters itemref
    = Ok allChapters) as Hskip.
  { intros i acc. unfold extractChapter. rewrite Ha. simpl.
    destruct Hdangling as [->|(manifestItem & -> & Hfile)]; [done|].
    case_decide; [|done]. by rewrite Hfile. }
  split; [done|]. split; [done|].
  split; [|by intros out ->%combineEpubs_spine; rewrite length_cons, length_fmap].
  pose proof (viewBook_manifestMap _ _ Hv) as Hmap.
  pose proof (viewBook_manifestMap _ _ Hv') as Hmap'.
  rewrite Hmanifest, Hmap in Hmap'. injection Hmap' as Hmap'.
  assert (extractBooks (epubBuffers1 ++ epubBuffer :: epubBuffers2)
          = extractBooks (epubBuffers1 ++ epubBuffer' :: epubBuffers2)) as Heq.
  { unfold extractBooks. rewrite !for_index_app. apply bind_ext. intros st. simpl.
    rewrite !processBook_view, Hv, Hv'. simpl.
    by rewrite (extractView_skip st _ v v' before after itemref). }
  unfold combineEpubs. by rewrite Heq.
Qed.

(** ** Metadata and the table of contents *)

Lemma firstChapters_lookup allChapters : ∀ (m0 : gmap nat Chapter.t) i,
  foldl noteFirstChapter m0 allChapters !! i =
  match m0 !! i with
  | Some c => Some c
  | None => firstChapterOf allChapters i
  end.
Proof.
  induction allChapters as [|c cs IH]; intros m0 i; simpl.
  - unfold firstChapterOf. simpl. by destruct (m0 !! i).
  - rewrite IH. unfold noteFirstChapter, firstChapterOf. simpl.
    destruct (decide (Chapter.bookIndex c = i)) as [<-|Hne].
    + destruct (m0 !! Chapter.bookIndex c) eqn:E; rewrite ?E; [done|].
      by rewrite lookup_insert_eq.
    + assert ((match m0 !! Chapter.bookIndex c with
               | Some _ => m0
               | None => <[Chapter.bookIndex c:=c]> m0
               end) !! i = m0 !! i) as ->.
      { destruct (m0 !! Chapter.bookIndex c); [done|]. by rewrite lookup_insert_ne. }
      destruct (m0 !! i); [done|].
      by destruct (list_find _ cs) as [[? ?]|].
Qed.

Lemma buildToc_spec allChapters bookMetadata :
  buildToc allChapters bookMetadata
  = tocHead +:+ tocEntries allChapters bookMetadata +:+ tocTail.
Proof.
  unfold buildToc. rewrite <- str_app_assoc. f_equal.
  generalize tocHead as acc.
  induction bookMetadata as [|book books IH]; intros acc; simpl.
  - by rewrite str_app_nil_r.
  - rewrite IH. unfold addTocEntry. rewrite firstChapters_lookup, lookup_empty.
    destruct (firstChapterOf _ _); [by rewrite str_app_assoc|done].
Qed.



(** ** The output archive *)






(** C10: the merge of no book at all succeeds.  Its output has no chapter
    and no asset, a spine with the table-of-contents page only, a manifest
    with that page and the navigation document, a table of contents without
    entry, and the five fixed files. *)
Theorem combineEpubs_empty :
  ∃ out,
    combineEpubs [] = Ok out
    ∧ chapters out = [] ∧ images out = [] ∧ styles out = [] ∧ fonts out = []
    ∧ books out = []
    ∧ spine (opfContent out) = ["toc-page"]
    ∧ length (spine (opfContent out)) = 1
    ∧ manifest (opfContent out) = [tocItem; ncxItem]
    ∧ navMap (ncxContent out) = []
    ∧ tocHTML out = tocHead +:+ tocTail
    ∧ dom (epub out) =
        {[ "mimetype"; "META-INF/container.xml"; "OEBPS/Text/toc.xhtml";
           "OEBPS/content.opf"; "OEBPS/toc.ncx" ]}.
Proof.
  eexists. split; [reflexivity|]. by repeat split.
Qed.

(** ** Failures *)

Lemma bind_Err {A B} (r : Result A) (f : A → Result B) e :
  bind r f = Err e → r = Err e ∨ ∃ a, r = Ok a ∧ f a = Err e.
Proof.
  destruct r as [a|e']; simpl; intros H; [right; by exists a|].
  injection H as ->. by left.
Qed.

Lemma defined_Err {A} (o : option A) e : defined o = Err e → e = TypeError.
Proof. destruct o; simpl; congruence. Qed.

Lemma containerFullPath_error containerData e :
  containerFullPath containerData = Err e → e = TypeError.
Proof.
  unfold containerFullPath. intros H.
  repeat (apply bind_Err in H as [H|(? & _ & H)]);
    first [exact (defined_Err _ _ H)|discriminate].
Qed.

(** C6, amended: there are no named error kinds.  When the books before it
    are read without failure, a book whose archive has no
    [META-INF/container.xml], or whose container document gives no path of a
    root file, makes the merge fail with a plain [TypeError]; a container
    document that the parser rejects makes it fail with the parser's own
    error.  A missing package document gives the same [TypeError], so the
    kind of the error does not tell these failures apart. *)
Theorem container_failures (epubBuffers1 epubBuffers2 : list Buffer) (epubBuffer : Buffer)
    (st : State) (zip : gmap string string) :
  for_index processBook 0 epubBuffers1 initialState = Ok st →
  loadAsync epubBuffer = Ok zip →
  (zip !! "META-INF/container.xml" = None →
     combineEpubs (epubBuffers1 ++ epubBuffer :: epubBuffers2) = Err TypeError)
  ∧ (∀ text e,
       zip !! "META-INF/container.xml" = Some text → parseXML text = Err e →
       combineEpubs (epubBuffers1 ++ epubBuffer :: epubBuffers2) = Err e)
  ∧ (∀ text d,
       zip !! "META-INF/container.xml" = Some text → parseXML text = Ok d →
       (∀ path, containerFullPath d ≠ Ok (Some path)) →
       combineEpubs (epubBuffers1 ++ epubBuffer :: epubBuffers2) = Err TypeError)
  ∧ (∀ text d path,
       zip !! "META-INF/container.xml" = Some text → parseXML text = Ok d →
       containerFullPath d = Ok (Some path) → zip !! path = None →
       combineEpubs (epubBuffers1 ++ epubBuffer :: epubBuffers2) = Err TypeError).
Proof.
  intros Hst Hload.
  assert (∀ e, openPackage epubBuffer = Err e →
    combineEpubs (epubBuffers1 ++ epubBuffer :: epubBuffers2) = Err e) as Hfail.
  { intros e He. unfold combineEpubs, extractBooks.
    rewrite for_index_app, Hst. simpl. unfold processBook. by rewrite He. }
  repeat split.
  - intros Hfile. apply Hfail. unfold openPackage. by rewrite Hload; simpl; rewrite Hfile.
  - intros text e Hfile Hparse. apply Hfail. unfold openPackage.
    rewrite Hload. simpl. rewrite Hfile. simpl. by rewrite Hparse.
  - intros text d Hfile Hparse Hpath. apply Hfail. unfold openPackage.
    rewrite Hload. simpl. rewrite Hfile. simpl. rewrite Hparse. simpl.
    destruct (containerFullPath d) as [[path|]|e] eqn:E; simpl; [|done|].
    + by destruct (Hpath path).
    + by rewrite (containerFullPath_error _ _ E).
  - intros text d path Hfile Hparse Hpath Hopf. apply Hfail. unfold openPackage.
    rewrite Hload. simpl. rewrite Hfile. simpl. rewrite Hparse. simpl.
    rewrite Hpath. simpl. by rewrite Hopf.
Qed.

(** ** Identifiers and paths do not collide across books or kinds *)

Lemma str_app_inj_r s t u : s +:+ u = t +:+ u → s = t.
Proof.
  revert t. induction s as [|c s IH]; intros [|d t] E.
  - done.
  - apply (f_equal String.length) in E. change ("" +:+ u) with u in E.
    rewrite str_app_cons in E. simpl in E. rewrite str_length_app in E. lia.
  - apply (f_equal String.length) in E. change ("" +:+ u) with u in E.
    rewrite str_app_cons in E. simpl in E. rewrite str_length_app in E. lia.
  - rewrite !str_app_cons in E. injection E as -> E. f_equal. by apply IH.
Qed.

Lemma entryId_inj k k' i i' key key' :
  entryId k i key = entryId k' i' key' → k = k' ∧ i = i' ∧ key = key'.
Proof.
  unfold entryId. intros E.
  destruct k, k'; try discriminate; simpl in E.
  - apply (inj (String.app "chapter_")) in E.
    by apply pretty_underscore_inj in E as [-> ->].
  - apply (inj (String.app "img_")) in E.
    by apply pretty_underscore_inj in E as [-> ->].
  - apply (inj (String.app "style_")) in E.
    by apply pretty_underscore_inj in E as [-> ->].
  - apply (inj (String.app "font_")) in E.
    by apply pretty_underscore_inj in E as [-> ->].
Qed.

Lemma entryId_app k i key rest :
  entryId k i key +:+ rest = entryId k i (key +:+ rest).
Proof. unfold entryId. by rewrite !str_app_assoc. Qed.

(** Two well-formed entries of different books, or of different kinds,
    differ in their identifiers and in their paths. *)
Lemma shaped_distinct key1 key2 e1 e2 :
  shaped key1 e1 → shaped key2 e2 →
  entry_book e1 ≠ entry_book e2 ∨ entry_kind e1 ≠ entry_kind e2 →
  entry_id e1 ≠ entry_id e2 ∧ entry_href e1 ≠ entry_href e2.
Proof.
  intros [Hid1 [rest1 Hhref1]] [Hid2 [rest2 Hhref2]] Hdiff. split.
  - intros E. rewrite Hid1, Hid2 in E. apply entryId_inj in E as (? & ? & _).
    by destruct Hdiff.
  - intros E. rewrite Hhref1, Hhref2, Hid1, Hid2, !entryId_app in E.
    apply (inj (String.app "OEBPS/")) in E.
    assert (entry_kind e1 = entry_kind e2) as Hk.
    { destruct (entry_kind e1), (entry_kind e2); try done; discriminate. }
    rewrite Hk in E. apply (inj (String.app _)) in E. apply (inj (String.app "/")) in E.
    apply entryId_inj in E as (_ & ? & _). by destruct Hdiff.
Qed.

(** The identifiers that a loop makes from a list of items are those of a
    sublist of their keys. *)
Lemma omap_ids {T} (em : xml → option T) (getid : T → string)
    (keyOf : xml → option string) k i :
  (∀ x a, em x = Some a → ∃ key, keyOf x = Some key ∧ getid a = entryId k i key) →
  ∀ l, ∃ keys, keys `sublist_of` omap keyOf l ∧ getid <$> omap em l = entryId k i <$> keys.
Proof.
  intros Hem l. induction l as [|x l (keys & Hsub & IH)].
  - by exists [].
  - simpl. destruct (em x) as [a|] eqn:Hx.
    + destruct (Hem _ _ Hx) as (key & -> & Hid). exists (key :: keys). split.
      * by apply sublist_skip.
      * simpl. f_equal; [done|exact IH].
    + exists keys. split; [|exact IH].
      destruct (keyOf x); [by apply sublist_cons|done].
Qed.

Lemma NoDup_perBook k (ids : nat → BookView → list string) (keysOf : BookView → list string)
    views :
  (∀ i v, ∃ keys, keys `sublist_of` keysOf v ∧ ids i v = entryId k i <$> keys) →
  Forall (λ v, NoDup (keysOf v)) views →
  ∀ i0,
    NoDup (perBook ids i0 views)
    ∧ Forall (λ x, ∃ i key, x = entryId k i key ∧ i0 ≤ i) (perBook ids i0 views).
Proof.
  intros Hids. induction views as [|v views IH]; intros Hnd i0.
  - split; [constructor|done].
  - apply Forall_cons in Hnd as [Hv Hnd].
    destruct (IH Hnd (S i0)) as [IH1 IH2].
    destruct (Hids i0 v) as (keys & Hsub & Hkeys). simpl. rewrite Hkeys. split.
    + apply NoDup_app. repeat split; [| |by apply IH1].
      * assert (Inj (=) (=) (entryId k i0)) as Hinj.
        { intros key key' E. by apply entryId_inj in E as (_ & _ & ?). }
        apply (NoDup_fmap_2 (entryId k i0)). exact (sublist_NoDup _ _ Hv Hsub).
      * intros x Hx Hx'. apply list_elem_of_fmap in Hx as (key & -> & _).
        eapply Forall_forall in IH2 as (i & key' & E & Hle); [|done].
        apply entryId_inj in E as (_ & -> & _). lia.
    + apply Forall_app. split.
      * apply Forall_forall. intros x (key & -> & _)%list_elem_of_fmap. by exists i0, key.
      * eapply Forall_impl; [exact IH2|]. intros x (i & key & -> & Hle).
        exists i, key. split; [done|lia].
Qed.

Lemma viewChapters_href views : ∀ i,
  Forall (λ c, Chapter.href c = "OEBPS/Text/" +:+ Chapter.id c +:+ ".xhtml")
    (perBook viewChapters i views).
Proof.
  intros i. apply Forall_forall. intros c Hc.
  apply perBook_elem in Hc as (j & v & _ & Hc).
  apply list_elem_of_omap in Hc as (x & _ & Hx).
  by apply emitted_chapter in Hx as (key & _ & _ & Hhref & _).
Qed.

Lemma entries_shaped epubBuffers out :
  combineEpubs epubBuffers = Ok out → Forall (λ e, ∃ key, shaped key e) (entries out).
Proof.
  intros H. apply combineEpubs_inv in H as (st & cs & Hst & Hcs & ->).
  rewrite updateChapters_spec in Hcs. injection Hcs as <-.
  destruct (extractBooks_views _ _ Hst) as (views & _ & Hc & Hi & Hs & Hf & _).
  destruct (views_shaped views 0) as (Hch & Him & Hsty & Hfo).
  unfold entries. simpl. rewrite chapterEntry_rewrittenBy, Hc, Hi, Hs, Hf.
  by rewrite !Forall_app, !Forall_fmap.
Qed.

(** C1, amended: after a successful merge, two chapters or assets that come
    from different books, or that are of different kinds, never have the
    same identifier or the same path.  When, in addition, no spine names an
    item twice and no manifest declares an identifier twice, no two
    chapters or assets at all have the same identifier, and no two chapters
    the same path. *)
Theorem records_distinct (epubBuffers : list Buffer) (out : Output) :
  combineEpubs epubBuffers = Ok out →
  (∀ e1 e2, e1 ∈ entries out → e2 ∈ entries out →
     entry_book e1 ≠ entry_book e2 ∨ entry_kind e1 ≠ entry_kind e2 →
     entry_id e1 ≠ entry_id e2 ∧ entry_href e1 ≠ entry_href e2)
  ∧ ((∀ epubBuffer v, epubBuffer ∈ epubBuffers → viewBook epubBuffer = Ok v →
        NoDup (omap spineKey (view_spine v)) ∧ NoDup (omap manifestKey (view_manifest v))) →
     NoDup (entry_id <$> entries out) ∧ NoDup (Chapter.href <$> chapters out)).
Proof.
  intros H. pose proof (entries_shaped _ _ H) as Hshaped. split.
  { intros e1 e2 H1 H2 Hdiff.
    pose proof (proj1 (Forall_forall _ _) Hshaped) as Hall.
    destruct (Hall _ H1) as [key1 K1]. destruct (Hall _ H2) as [key2 K2].
    by eapply shaped_distinct. }
  intros Hkeys.
  apply combineEpubs_inv in H as (st & cs & Hst & Hcs & ->).
  rewrite updateChapters_spec in Hcs. injection Hcs as <-.
  destruct (extractBooks_views _ _ Hst) as (views & Hviews & Hc & Hi & Hs & Hf & _).
  assert (Forall (λ v, NoDup (omap spineKey (view_spine v))) views
          ∧ Forall (λ v, NoDup (omap manifestKey (view_manifest v))) views) as [Hspine Hman].
  { split; apply Forall_forall; intros v Hv;
      apply list_elem_of_lookup in Hv as [j Hj];
      destruct (Forall2_lookup_r _ _ _ _ _ Hviews Hj) as (b & Hb & Hview);
      apply list_elem_of_lookup_2 in Hb; by destruct (Hkeys _ _ Hb Hview). }
  assert (NoDup (Chapter.id <$> allChapters st)
          ∧ Forall (λ x, ∃ i key, x = entryId KChapter i key ∧ 0 ≤ i)
              (Chapter.id <$> allChapters st)) as [Hnc Hfc].
  { rewrite Hc, fmap_perBook.
    apply (NoDup_perBook KChapter _ (λ v, omap spineKey (view_spine v))); [|done].
    intros i v. apply omap_ids. intros x c Hx.
    apply emitted_chapter in Hx as (key & Hkey & Hid & _). by exists key. }
  assert (∀ k (em : nat → BookView → xml → option Asset.t),
    (∀ i v x a, em i v x = Some a →
       ∃ key, manifestKey x = Some key ∧ Asset.bookIndex a = i ∧ shaped key (assetEntry k a)) →
    NoDup (Asset.id <$> perBook (λ i v, omap (em i v) (view_manifest v)) 0 views)
    ∧ Forall (λ x, ∃ i key, x = entryId k i key ∧ 0 ≤ i)
        (Asset.id <$> perBook (λ i v, omap (em i v) (view_manifest v)) 0 views)) as Hassets.
  { intros k em Hem. rewrite fmap_perBook.
    apply (NoDup_perBook k _ (λ v, omap manifestKey (view_manifest v))); [|done].
    intros i v. apply omap_ids. intros x a Hx.
    apply Hem in Hx as (key & Hkey & Hbook & Hid & _). exists key. split; [done|].
    simpl in Hid. by rewrite Hbook in Hid. }
  destruct (Hassets KImage (λ i v, emitted (extractImage i (view_zip v) (view_baseDir v))))
    as [Hni Hfi]; [intros; by eapply emitted_image|].
  destruct (Hassets KStyle (λ i v, emitted (extractStyle i (view_zip v) (view_baseDir v))))
    as [Hns Hfs]; [intros; by eapply emitted_style|].
  destruct (Hassets KFont (λ i v, emitted (extractFont i (view_zip v) (view_baseDir v))))
    as [Hnf Hff]; [intros; by eapply emitted_font|].
  fold viewImages in Hni, Hfi. fold viewStyles in Hns, Hfs. fold viewFonts in Hnf, Hff.
  rewrite <- Hi in Hni, Hfi. rewrite <- Hs in Hns, Hfs. rewrite <- Hf in Hnf, Hff.
  assert (∀ k k' (l l' : list string),
    k ≠ k' →
    Forall (λ x, ∃ i key, x = entryId k i key ∧ 0 ≤ i) l →
    Forall (λ x, ∃ i key, x = entryId k' i key ∧ 0 ≤ i) l' →
    ∀ x, x ∈ l → x ∉ l') as Hdisjoint.
  { intros k k' l l' Hk Hl Hl' x Hx Hx'.
    destruct (proj1 (Forall_forall _ _) Hl _ Hx) as (i & key & E & _).
    destruct (proj1 (Forall_forall _ _) Hl' _ Hx') as (i' & key' & E' & _).
    rewrite E in E'. by apply entryId_inj in E' as (? & _). }
  split.
  - unfold entries. simpl. rewrite chapterEntry_rewrittenBy, !fmap_app, <- !list_fmap_compose.
    change (entry_id ∘ chapterEntry) with Chapter.id.
    change (entry_id ∘ assetEntry KImage) with Asset.id.
    change (entry_id ∘ assetEntry KStyle) with Asset.id.
    change (entry_id ∘ assetEntry KFont) with Asset.id.
    apply NoDup_app. split; [done|]. split.
    { intros x Hx. rewrite !elem_of_app. intros [Hx'|[Hx'|Hx']].
      - exact (Hdisjoint KChapter KImage _ _ ltac:(done) Hfc Hfi x Hx Hx').
      - exact (Hdisjoint KChapter KStyle _ _ ltac:(done) Hfc Hfs x Hx Hx').
      - exact (Hdisjoint KChapter KFont _ _ ltac:(done) Hfc Hff x Hx Hx'). }
    apply NoDup_app. split; [done|]. split.
    { intros x Hx. rewrite !elem_of_app. intros [Hx'|Hx'].
      - exact (Hdisjoint KImage KStyle _ _ ltac:(done) Hfi Hfs x Hx Hx').
      - exact (Hdisjoint KImage KFont _ _ ltac:(done) Hfi Hff x Hx Hx'). }
    apply NoDup_app. split; [done|]. split; [|done].
    intros x Hx Hx'. exact (Hdisjoint KStyle KFont _ _ ltac:(done) Hfs Hff x Hx Hx').
  - simpl. rewrite <- list_fmap_compose.
    assert (Chapter.href ∘ rewrittenBy (allImages st) (allStyles st) = Chapter.href) as ->
      by done.
    pose proof (viewChapters_href views 0) as Hhref. rewrite <- Hc in Hhref.
    assert (Chapter.href <$> allChapters st
            = (λ id, "OEBPS/Text/" +:+ id +:+ ".xhtml") <$> (Chapter.id <$> allChapters st))
      as ->.
    { rewrite <- list_fmap_compose. apply Forall_fmap_ext_1.
      eapply Forall_impl; [exact Hhref|]. done. }
    assert (Inj (=) (=) (λ id, "OEBPS/Text/" +:+ id +:+ ".xhtml")) as Hinj.
    { intros a b E. apply (inj (String.app "OEBPS/Text/")) in E.
      by apply str_app_inj_r in E. }
    by apply (NoDup_fmap_2 _).
Qed.

(** * Further properties of the engine *)

Lemma chapters_href epubBuffers out :
  combineEpubs epubBuffers = Ok out →
  Forall (λ c, Chapter.href c = "OEBPS/Text/" +:+ Chapter.id c +:+ ".xhtml") (chapters out).
Proof.
  intros H. apply combineEpubs_inv in H as (st & cs & Hst & Hcs & ->).
  rewrite updateChapters_spec in Hcs. injection Hcs as <-.
  destruct (extractBooks_views _ _ Hst) as (views & _ & Hc & _).
  simpl. rewrite Hc. apply Forall_fmap.
  eapply Forall_impl; [apply viewChapters_href|]. done.
Qed.

(** X1: the navigation document of a successful merge has one point per
    chapter, in the order of the chapters; the point of the chapter at
    position [k] is numbered [k + 1] in its identifier, its play order and
    its label, and its source is the path of the chapter's file relative
    to the package document.  No two points have the same play order. *)
Theorem navigation_follows_chapters (epubBuffers : list Buffer) (out : Output) :
  combineEpubs epubBuffers = Ok out →
  length (navMap (ncxContent out)) = length (chapters out)
  ∧ (∀ k c, chapters out !! k = Some c →
       navMap (ncxContent out) !! k
       = Some {| nav_id := "navPoint-" +:+ pretty (k + 1);
                 playOrder := pretty (k + 1);
                 navLabel := "Chapter " +:+ pretty (k + 1);
                 nav_src := "Text/" +:+ Chapter.id c +:+ ".xhtml" |})
  ∧ NoDup (playOrder <$> navMap (ncxContent out)).
Proof.
  intros H. pose proof (chapters_href _ _ H) as Hhref.
  apply combineEpubs_inv in H as (st & cs & Hst & Hcs & ->). simpl in *.
  split; [apply length_imap|]. split.
  - intros k c Hk. rewrite list_lookup_imap, Hk. simpl. unfold navPoint. do 2 f_equal.
    rewrite (proj1 (Forall_lookup _ _) Hhref _ _ Hk).
    change ("OEBPS/Text/" +:+ Chapter.id c +:+ ".xhtml")
      with ("OEBPS/" +:+ "Text/" +:+ Chapter.id c +:+ ".xhtml").
    apply replace_first_prefix.
  - apply NoDup_alt. intros i j x. rewrite !list_lookup_fmap, !list_lookup_imap.
    destruct (cs !! i), (cs !! j); simpl; try done.
    intros [= <-] [= E]. apply (inj pretty) in E. lia.
Qed.

(** X2: the metadata of the package document come from the first book
    alone: its title, its creator and its language are those of the first
    book, and [Combined EPUB], [Multiple Authors] and [en] when that book
    has none or when there is no book.  The identifier is the generated
    one, and the navigation document carries the same identifier and the
    same title. *)
Theorem metadata_of_first_book (epubBuffers : list Buffer) (out : Output) :
  combineEpubs epubBuffers = Ok out →
  ∃ views,
    Forall2 (λ epubBuffer v, viewBook epubBuffer = Ok v) epubBuffers views
    ∧ dc_title (opfContent out) =
        match views with
        | v :: _ => metadataOr "dc:title" (view_metadata v) (Some (XText "Combined EPUB"))
        | [] => Some (XText "Combined EPUB")
        end
    ∧ dc_creator (opfContent out) =
        match views with
        | v :: _ => metadataOr "dc:creator" (view_metadata v) (Some (XText "Multiple Authors"))
        | [] => Some (XText "Multiple Authors")
        end
    ∧ dc_language (opfContent out) =
        match views with
        | v :: _ => metadataOr "dc:language" (view_metadata v) (Some (XText "en"))
        | [] => Some (XText "en")
        end
    ∧ dc_identifier (opfContent out) = uuid
    ∧ dtb_uid (ncxContent out) = dc_identifier (opfContent out)
    ∧ docTitle (ncxContent out) = dc_title (opfContent out).
Proof.
  intros H. apply combineEpubs_inv in H as (st & cs & Hst & Hcs & ->).
  destruct (extractBooks_views _ _ Hst) as (views & Hviews & _ & _ & _ & _ & _ & Hm).
  exists views. split; [done|]. simpl. rewrite Hm. by destruct views.
Qed.

(** X3: in the package document of a successful merge every entry of the
    spine is the identifier of a manifest item that is an XHTML document;
    the manifest has, besides the table-of-contents page and the
    navigation document, one item for each chapter, image, style and font,
    and the items of the styles are declared as [text/css]. *)
Theorem spine_within_manifest (epubBuffers : list Buffer) (out : Output) :
  combineEpubs epubBuffers = Ok out →
  (∀ idref, idref ∈ spine (opfContent out) →
     ∃ item, item ∈ manifest (opfContent out)
       ∧ item_id item = idref
       ∧ item_media_type item = Some "application/xhtml+xml")
  ∧ length (manifest (opfContent out))
    = 2 + length (chapters out) + length (images out) + length (styles out)
      + length (fonts out)
  ∧ (∀ a, a ∈ styles out →
       ∃ item, item ∈ manifest (opfContent out)
         ∧ item_id item = Asset.id a ∧ item_media_type item = Some "text/css").
Proof.
  intros H. apply combineEpubs_inv in H as (st & cs & Hst & Hcs & ->). simpl.
  rewrite !pushAll_spec. simpl. repeat split.
  - intros idref [->|Hin]%elem_of_cons.
    + exists tocItem. split; [left|done].
    + apply list_elem_of_fmap in Hin as (c & -> & Hc).
      exists (chapterItem c). split; [|done].
      right. rewrite !elem_of_app. left. left. left. left. by apply list_elem_of_fmap_2.
  - rewrite !length_app, !length_fmap. simpl. lia.
  - intros a Ha. exists (styleItem a). split; [|done].
    right. rewrite !elem_of_app. left. left. right. by apply list_elem_of_fmap_2.
Qed.


(** X5: a chapter in which no original path of an image or style of its own
    book occurs comes out of the rewriter as it went in. *)
Theorem rewriter_without_references (chapter : Chapter.t)
    (allImages allStyles : list Asset.t) :
  (∀ a, a ∈ sameBook chapter allImages allStyles →
     Asset.originalHref a ≠ ""
     ∧ ¬ occurs (Asset.originalHref a) (Chapter.content chapter)) →
  updateChapter allImages allStyles chapter = Ok chapter.
Proof.
  intros Hno. rewrite updateChapter_spec. f_equal. unfold rewrittenBy.
  assert (∀ l content,
    (∀ b, b ∈ l → Asset.originalHref b ≠ "" ∧ ¬ occurs (Asset.originalHref b) content) →
    foldl literalStep content l = content) as Hid.
  { induction l as [|b l IH]; intros content Hl; [done|]. simpl.
    destruct (Hl b) as [? ?]; [by left|].
    rewrite literalStep_absent by done. apply IH. intros b' Hb'. apply Hl. by right. }
  rewrite Hid by done. by destruct chapter.
Qed.

Lemma emitted_image_source i zip baseDir x a :
  emitted (extractImage i zip baseDir) x = Some a →
  ∃ attrs, Xml.attrs x = Some attrs
    ∧ attrs !! "href" = Some (Asset.originalHref a)
    ∧ (∃ mt, attrs !! "media-type" = Some mt ∧ startsWith "image/" mt = true)
    ∧ Asset.mediaType a = attrs !! "media-type"
    ∧ zip !! (baseDir +:+ Asset.originalHref a) = Some (Asset.content a)
    ∧ Asset.bookIndex a = i.
Proof.
  unfold emitted, extractImage, push, bind, defined.
  destruct (Xml.attrs x) as [g|]; simpl; [|done].
  destruct (g !! "media-type") as [mt|] eqn:Hmt; simpl; [|done].
  destruct (startsWith "image/" mt) eqn:Hs; simpl; [|done].
  destruct (g !! "href") as [h|] eqn:Hh; simpl.
  - destruct (zip !! _) as [content|] eqn:Hz; simpl; [|done].
    intros [= <-]. exists g. simpl. repeat split; try done. by exists mt.
  - by destruct (zip !! _).
Qed.

Lemma emitted_style_source i zip baseDir x a :
  emitted (extractStyle i zip baseDir) x = Some a →
  ∃ attrs, Xml.attrs x = Some attrs
    ∧ attrs !! "href" = Some (Asset.originalHref a)
    ∧ attrs !! "media-type" = Some "text/css"
    ∧ zip !! (baseDir +:+ Asset.originalHref a) = Some (Asset.content a)
    ∧ Asset.bookIndex a = i.
Proof.
  unfold emitted, extractStyle, push, bind, defined.
  destruct (Xml.attrs x) as [g|]; simpl; [|done].
  case_decide as Hmt; simpl; [|done].
  destruct (g !! "href") as [h|] eqn:Hh; simpl.
  - destruct (zip !! _) as [content|] eqn:Hz; simpl; [|done].
    intros [= <-]. exists g. by simpl.
  - by destruct (zip !! _).
Qed.

Lemma emitted_font_source i zip baseDir x a :
  emitted (extractFont i zip baseDir) x = Some a →
  ∃ attrs, Xml.attrs x = Some attrs
    ∧ attrs !! "href" = Some (Asset.originalHref a)
    ∧ isFontType (attrs !! "media-type") = true
    ∧ Asset.mediaType a = attrs !! "media-type"
    ∧ zip !! (baseDir +:+ Asset.originalHref a) = Some (Asset.content a)
    ∧ Asset.bookIndex a = i.
Proof.
  unfold emitted, extractFont, push, bind, defined.
  destruct (Xml.attrs x) as [g|]; simpl; [|done].
  destruct (isFontType (g !! "media-type")) eqn:Hmt; simpl; [|done].
  destruct (g !! "href") as [h|] eqn:Hh; simpl.
  - destruct (zip !! _) as [content|] eqn:Hz; simpl; [|done].
    intros [= <-]. exists g. by simpl.
  - by destruct (zip !! _).
Qed.

Lemma perBook_elem_0 {T} (F : nat → BookView → list T) views x :
  x ∈ perBook F 0 views → ∃ j v, views !! j = Some v ∧ x ∈ F j v.
Proof. intros H. apply perBook_elem in H as (j & v & ? & ?). by exists j, v. Qed.




Lemma font_type_not_image mt : mt ∈ fontTypes → startsWith "image/" mt = false.
Proof. unfold fontTypes. rewrite !elem_of_cons, elem_of_nil. intros H. intuition (by subst). Qed.

Lemma emitted_one_kind i zip baseDir x :
  length (option_list (emitted (extractImage i zip baseDir) x))
  + length (option_list (emitted (extractStyle i zip baseDir) x))
  + length (option_list (emitted (extractFont i zip baseDir) x)) ≤ 1.
Proof.
  destruct (emitted (extractImage i zip baseDir) x) as [a1|] eqn:H1;
    destruct (emitted (extractStyle i zip baseDir) x) as [a2|] eqn:H2;
    destruct (emitted (extractFont i zip baseDir) x) as [a3|] eqn:H3; simpl; try lia; exfalso.
  all: try (apply emitted_image_source in H1 as (g1 & Hx1 & _ & (mt & Hmt & Himg) & _)).
  all: try (apply emitted_style_source in H2 as (g2 & Hx2 & _ & Hcss & _)).
  all: try (apply emitted_font_source in H3 as (g3 & Hx3 & _ & Hfont & _)).
  all: simplify_eq.
  all: try (rewrite Hmt in Hfont).
  all: try (rewrite Hcss in Hfont).
  all: try done.
  all: simpl in Hfont; apply bool_decide_eq_true_1, font_type_not_image in Hfont; congruence.
Qed.

Lemma omap_one_kind {A T1 T2 T3} (f1 : A → option T1) (f2 : A → option T2)
    (f3 : A → option T3) l :
  (∀ x, length (option_list (f1 x)) + length (option_list (f2 x))
        + length (option_list (f3 x)) ≤ 1) →
  length (omap f1 l) + length (omap f2 l) + length (omap f3 l) ≤ length l.
Proof.
  intros Hone. induction l as [|x l IH]; [done|]. simpl.
  pose proof (Hone x). unfold omap in *.
  destruct (f1 x), (f2 x), (f3 x); simpl in *; lia.
Qed.

Lemma length_omap_le {A T} (f : A → option T) l : length (omap f l) ≤ length l.
Proof.
  induction l as [|x l IH]; [done|]. unfold omap in *. simpl. destruct (f x); simpl; lia.
Qed.

(** X8: an item of a manifest gives at most one asset, for no media type
    starts with [image/], is [text/css] and is a font type at once.  So a
    successful merge has one metadata record for each input, no more
    chapters than the spines of the inputs have entries, and no more
    images, styles and fonts together than their manifests have items. *)
Theorem records_bounded_by_inputs (epubBuffers : list Buffer) (out : Output) :
  combineEpubs epubBuffers = Ok out →
  ∃ views,
    Forall2 (λ epubBuffer v, viewBook epubBuffer = Ok v) epubBuffers views
    ∧ length (books out) = length epubBuffers
    ∧ length (chapters out) ≤ sum_list ((λ v, length (view_spine v)) <$> views)
    ∧ length (images out) + length (styles out) + length (fonts out)
      ≤ sum_list ((λ v, length (view_manifest v)) <$> views).
Proof.
  intros H. apply combineEpubs_inv in H as (st & cs & Hst & Hcs & ->).
  rewrite updateChapters_spec in Hcs. injection Hcs as <-.
  destruct (extractBooks_views _ _ Hst) as (views & Hviews & Hc & Hi & Hs & Hf & Hb & _).
  exists views. split; [done|]. simpl. rewrite length_fmap, Hc, Hi, Hs, Hf, Hb.
  rewrite (Forall2_length _ _ _ Hviews). clear Hst Hviews Hc Hi Hs Hf Hb. generalize 0 as i.
  induction views as [|v views IH]; intros i; [simpl; lia|].
  destruct (IH (S i)) as (IH1 & IH2 & IH3). simpl. rewrite !length_app.
  assert (length (viewChapters i v) ≤ length (view_spine v)) by apply length_omap_le.
  assert (length (viewImages i v) + length (viewStyles i v) + length (viewFonts i v)
          ≤ length (view_manifest v)) by apply omap_one_kind, emitted_one_kind.
  unfold fmap in *. lia.
Qed.














(** X9: a book that cannot be processed rejects the whole merge, whatever
    books follow it: when the books before it were extracted and the
    archive of the book cannot be loaded, or its processing throws, the
    merge fails with that very error. *)
Theorem first_failure_aborts (epubBuffers1 epubBuffers2 : list Buffer)
    (epubBuffer : Buffer) (st : State) (e : JsError) :
  extractBooks epubBuffers1 = Ok st →
  loadAsync epubBuffer = Err e ∨ processBook st (length epubBuffers1) epubBuffer = Err e →
  combineEpubs (epubBuffers1 ++ epubBuffer :: epubBuffers2) = Err e.
Proof.
  intros Hst He. unfold combineEpubs, extractBooks in *.
  rewrite for_index_app, Hst. simpl.
  assert (processBook st (length epubBuffers1) epubBuffer = Err e) as ->; [|done].
  destruct He as [He|He]; [|done].
  unfold processBook, openPackage. by rewrite He.
Qed.




Lemma foldl_addFile_is_Some l : ∀ zip n,
  is_Some (foldl addFile zip l !! n) ↔ is_Some (zip !! n) ∨ n ∈ l.*1.
Proof.
  induction l as [|p l IH]; intros zip n; simpl.
  - rewrite elem_of_nil. tauto.
  - rewrite IH, ?fmap_cons, elem_of_cons. unfold addFile, file.
    destruct (decide (p.1 = n)) as [->|Hne].
    + rewrite lookup_insert_eq. split; [|by eauto]. intros _. right. by left.
    + rewrite lookup_insert_ne by done. split; [tauto|].
      intros [?|[?|?]]; [tauto|congruence|tauto].
Qed.

Lemma generateAsync_lookup c (zip : gmap string ZipFile) name :
  generateAsync c zip !! name = (λ f, (data f, default c (compression f))) <$> zip !! name.
Proof. unfold generateAsync. apply lookup_fmap. Qed.

Lemma buildArchive_files st tocHTML opfXML ncxXML :
  buildArchive st tocHTML opfXML ncxXML
  = file "OEBPS/toc.ncx" ncxXML None
      (file "OEBPS/content.opf" opfXML None
         (foldl addFile
            (file "OEBPS/Text/toc.xhtml" tocHTML None
               (file "META-INF/container.xml" containerXML None
                  (file "mimetype" "application/epub+zip" (Some STORE) ∅)))
            (contentFiles (assemble st)))).
Proof.
  unfold buildArchive, contentFiles, assemble. cbn [chapters images styles fonts].
  by rewrite !foldl_app, !foldl_fmap.
Qed.

Lemma contentFiles_paths out : (contentFiles out).*1 = entry_href <$> entries out.
Proof.
  unfold contentFiles, entries. rewrite !fmap_app, <- !list_fmap_compose. done.
Qed.


Lemma shaped_href_OEBPS key e :
  shaped key e → "OEBPS/" +:+ replace_first "OEBPS/" "" (entry_href e) = entry_href e.
Proof. intros (_ & rest & ->). by rewrite replace_first_prefix. Qed.

Lemma epub_lookup st name :
  epub (assemble st) !! name
  = (λ f, (data f, default DEFLATE (compression f))) <$>
    (<["OEBPS/toc.ncx" :=
         {| data := buildObject (NcxObject (ncxContent (assemble st)));
            compression := None |}]>
       (<["OEBPS/content.opf" :=
            {| data := buildObject (OpfObject (opfContent (assemble st)));
               compression := None |}]>
          (foldl addFile
             (<["OEBPS/Text/toc.xhtml" :=
                  {| data := tocHTML (assemble st); compression := None |}]>
                (<["META-INF/container.xml" :=
                     {| data := containerXML; compression := None |}]>
                   (<["mimetype" :=
                        {| data := "application/epub+zip"; compression := Some STORE |}]>
                      ∅)))
             (contentFiles (assemble st))))) !! name.
Proof.
  unfold assemble at 1. cbn [epub]. by rewrite generateAsync_lookup, buildArchive_files.
Qed.


Lemma epub_names epubBuffers out name :
  combineEpubs epubBuffers = Ok out →
  is_Some (epub out !! name) ↔
  name ∈ [ "mimetype"; "META-INF/container.xml"; "OEBPS/Text/toc.xhtml";
           "OEBPS/content.opf"; "OEBPS/toc.ncx" ]
  ∨ name ∈ entry_href <$> entries out.
Proof.
  intros H. apply combineEpubs_inv in H as (st & cs & _ & _ & ->).
  rewrite <- contentFiles_paths, epub_lookup, fmap_is_Some.
  rewrite !lookup_insert_is_Some', foldl_addFile_is_Some, !lookup_insert_is_Some'.
  rewrite lookup_empty, !elem_of_cons, elem_of_nil.
  pose proof (@is_Some_None ZipFile).
  split; intros Hn; destruct_or!; subst; auto 10; done.
Qed.

Lemma manifest_paths epubBuffers out :
  combineEpubs epubBuffers = Ok out →
  (λ item, "OEBPS/" +:+ item_href item) <$> manifest (opfContent out)
  = "OEBPS/Text/toc.xhtml" :: (entry_href <$> entries out) ++ ["OEBPS/toc.ncx"].
Proof.
  intros H. pose proof (entries_shaped _ _ H) as Hshaped.
  apply combineEpubs_inv in H as (st & cs & _ & _ & ->).
  unfold entries in *. cbn [assemble chapters images styles fonts opfContent] in *.
  unfold buildOpf. cbn [manifest]. rewrite !pushAll_spec. unfold push.
  rewrite !Forall_app, !Forall_fmap in Hshaped.
  destruct Hshaped as (Hc & Hi & Hs & Hf).
  rewrite !fmap_app, <- !list_fmap_compose. simpl.
  rewrite <- !app_assoc. simpl in Hc, Hi, Hs, Hf.
  f_equal. f_equal; [|f_equal; [|f_equal; [|f_equal]]].
  all: apply Forall_fmap_ext; eapply Forall_impl; [eassumption|].
  all: intros x [key Hk]; exact (shaped_href_OEBPS _ _ Hk).
Qed.

(** X12: the manifest of the package document of a successful merge lists
    the archive.  A path is a file of the archive exactly when it is
    [mimetype], the container file or the package document itself, or the
    path of a manifest item taken from the directory [OEBPS]. *)
Theorem manifest_lists_archive (epubBuffers : list Buffer) (out : Output) (name : string) :
  combineEpubs epubBuffers = Ok out →
  is_Some (epub out !! name) ↔
  name ∈ unlisted
  ∨ ∃ item, item ∈ manifest (opfContent out) ∧ name = "OEBPS/" +:+ item_href item.
Proof.
  intros H. rewrite (epub_names _ _ _ H).
  assert ((∃ item, item ∈ manifest (opfContent out) ∧ name = "OEBPS/" +:+ item_href item)
          ↔ name ∈ (λ item, "OEBPS/" +:+ item_href item) <$> manifest (opfContent out))
    as ->.
  { rewrite list_elem_of_fmap. split; intros (item & ? & ?); by exists item. }
  rewrite (manifest_paths _ _ H). unfold unlisted.
  rewrite !elem_of_cons, elem_of_app, !elem_of_cons, !elem_of_nil. tauto.
Qed.

Lemma str_take_app p v : take (String.length p) (p +:+ v) = p.
Proof.
  induction p as [|c p IH]; [by destruct v|]. rewrite str_app_cons. simpl. by rewrite IH.
Qed.

Lemma str_take_length s : take (String.length s) s = s.
Proof. induction s as [|c s IH]; [done|]. simpl. by rewrite IH. Qed.

Lemma lastIndexOf_go_spec c s : ∀ i last,
  (mem c s = false ∧ lastIndexOf_go c s i last = last)
  ∨ ∃ u v, s = u +:+ String c v ∧ mem c v = false
      ∧ lastIndexOf_go c s i last = (i + Z.of_nat (String.length u))%Z.
Proof.
  induction s as [|d s IH]; intros i last; [by left|]. simpl.
  destruct (IH (i + 1)%Z (if decide (d = c) then i else last))
    as [[Hmem ->]|(u & v & -> & Hmem & ->)].
  - destruct (decide (d = c)) as [->|Hne].
    + right. exists "", s. repeat split; [done|]. simpl. lia.
    + by left.
  - right. exists (String d u), v. repeat split; [done|]. simpl. lia.
Qed.

Lemma substring_inside a b s :
  (0 ≤ a ≤ b)%Z → (b ≤ Z.of_nat (String.length s))%Z →
  substring a b s = take (Z.to_nat b - Z.to_nat a) (drop (Z.to_nat a) s).
Proof.
  intros Ha Hb. unfold substring, clamp.
  replace (Z.to_nat (Z.min (Z.max a 0) (Z.of_nat (String.length s)))) with (Z.to_nat a) by lia.
  replace (Z.to_nat (Z.min (Z.max b 0) (Z.of_nat (String.length s)))) with (Z.to_nat b) by lia.
  by rewrite Nat.max_r, Nat.min_l by lia.
Qed.

(** The two halves in which the engine cuts a path at its last slash. *)
Lemma lastIndexOf_split p :
  (mem "/" p = false
   ∧ substring 0 (lastIndexOf "/" p + 1) p = ""
   ∧ fileName p = p)
  ∨ ∃ u v, p = u +:+ String "/" v ∧ mem "/" v = false
      ∧ substring 0 (lastIndexOf "/" p + 1) p = u +:+ "/"
      ∧ fileName p = v.
Proof.
  unfold fileName, substring_from, lastIndexOf.
  destruct (lastIndexOf_go_spec "/" p 0 (-1)) as [[Hmem ->]|(u & v & Hp & Hmem & ->)].
  - left. split; [done|]. rewrite !substring_inside by lia.
    change (Z.to_nat (-1 + 1)) with 0. change (Z.to_nat 0) with 0.
    rewrite Nat2Z.id, !Nat.sub_0_r. simpl. split; [done|]. apply str_take_length.
  - right. exists u, v. split; [done|]. split; [done|].
    assert (String.length p = String.length u + 1 + String.length v) as Hlen.
    { rewrite Hp, str_length_app. simpl. lia. }
    assert (p = (u +:+ "/") +:+ v) as Hp' by (by rewrite str_app_assoc).
    assert (String.length (u +:+ "/") = String.length u + 1) as Hlen'.
    { by rewrite str_length_app. }
    rewrite !substring_inside by lia.
    replace (Z.to_nat (0 + Z.of_nat (String.length u) + 1)) with (String.length (u +:+ "/")) by lia.
    change (Z.to_nat 0) with 0. rewrite Nat2Z.id, !Nat.sub_0_r. simpl drop at 1.
    split.
    + rewrite Hp'. apply str_take_app.
    + rewrite Hp' at 2. rewrite str_drop_app.
      replace (String.length p - String.length (u +:+ "/")) with (String.length v) by lia.
      apply str_take_length.
Qed.

Lemma mem_app c u v : mem c (u +:+ String c v) = true.
Proof.
  induction u as [|d u IH].
  - change ("" +:+ String c v) with (String c v). simpl. by rewrite decide_True.
  - rewrite str_app_cons. simpl. by case_decide.
Qed.

(** X13: the engine cuts a path at its last slash.  The directory, taken
    for the package document, and the file name, taken for an image, a
    style or a font, put together give the path again; the file name has
    no slash; the directory is empty or ends with a slash, and it is empty
    exactly when the path has no slash. *)
Theorem path_split (p : string) :
  let baseDir := substring 0 (lastIndexOf "/" p + 1) p in
  baseDir +:+ fileName p = p
  ∧ mem "/" (fileName p) = false
  ∧ (baseDir = "" ∨ ∃ dir, baseDir = dir +:+ "/")
  ∧ (baseDir = "" ↔ mem "/" p = false).
Proof.
  simpl. destruct (lastIndexOf_split p) as [(Hmem & -> & ->)|(u & v & Hp & Hmem & -> & ->)].
  - repeat split; auto.
  - repeat split.
    + by rewrite str_app_assoc.
    + done.
    + right. by exists u.
    + intros [_ [=]]%str_app_eq_nil.
    + intros Hno. by rewrite Hp, mem_app in Hno.
Qed.

Lemma emitted_image_href i zip baseDir x a :
  emitted (extractImage i zip baseDir) x = Some a →
  Asset.href a
  = "OEBPS/Images/" +:+ Asset.id a +:+ "_" +:+ fileName (Asset.originalHref a).
Proof.
  unfold emitted, extractImage, push, bind, defined.
  destruct (Xml.attrs x) as [g|]; simpl; [|done].
  destruct (g !! "media-type") as [mt|]; simpl; [|done].
  destruct (startsWith "image/" mt); simpl; [|done].
  destruct (zip !! _); simpl; [|done].
  destruct (g !! "href"); simpl; [|done].
  by intros [= <-].
Qed.

Lemma emitted_style_href i zip baseDir x a :
  emitted (extractStyle i zip baseDir) x = Some a →
  Asset.href a
  = "OEBPS/Styles/" +:+ Asset.id a +:+ "_" +:+ fileName (Asset.originalHref a).
Proof.
  unfold emitted, extractStyle, push, bind, defined.
  destruct (Xml.attrs x) as [g|]; simpl; [|done].
  case_decide; simpl; [|done].
  destruct (zip !! _); simpl; [|done].
  destruct (g !! "href"); simpl; [|done].
  by intros [= <-].
Qed.

Lemma emitted_font_href i zip baseDir x a :
  emitted (extractFont i zip baseDir) x = Some a →
  Asset.href a
  = "OEBPS/Fonts/" +:+ Asset.id a +:+ "_" +:+ fileName (Asset.originalHref a).
Proof.
  unfold emitted, extractFont, push, bind, defined.
  destruct (Xml.attrs x) as [g|]; simpl; [|done].
  destruct (isFontType _); simpl; [|done].
  destruct (zip !! _); simpl; [|done].
  destruct (g !! "href"); simpl; [|done].
  by intros [= <-].
Qed.

(** X14: the path of an asset of a successful merge keeps the file name of
    the original path and drops its directories: it is the directory of
    the kind of the asset, then the identifier of the asset, an underscore
    and what follows the last slash of the original path. *)
Theorem asset_path_keeps_file_name (epubBuffers : list Buffer) (out : Output) :
  combineEpubs epubBuffers = Ok out →
  ∀ k a,
    (k = KImage ∧ a ∈ images out) ∨ (k = KStyle ∧ a ∈ styles out)
    ∨ (k = KFont ∧ a ∈ fonts out) →
    ∃ dir name,
      Asset.originalHref a = dir +:+ name
      ∧ mem "/" name = false
      ∧ (dir = "" ∨ ∃ dir', dir = dir' +:+ "/")
      ∧ Asset.href a = "OEBPS/" +:+ kindDir k +:+ "/" +:+ Asset.id a +:+ "_" +:+ name.
Proof.
  intros H. apply combineEpubs_inv in H as (st & cs & Hst & _ & ->).
  destruct (extractBooks_views _ _ Hst) as (views & _ & _ & Hi & Hs & Hf & _).
  intros k a Hka.
  assert (Asset.href a
          = "OEBPS/" +:+ kindDir k +:+ "/" +:+ Asset.id a +:+ "_"
            +:+ fileName (Asset.originalHref a)) as Hhref.
  { simpl in Hka. rewrite Hi, Hs, Hf in Hka.
    destruct Hka as [[-> Ha]|[[-> Ha]|[-> Ha]]];
      apply perBook_elem_0 in Ha as (j & v & _ & Ha);
      apply list_elem_of_omap in Ha as (x & _ & Hem).
    - exact (emitted_image_href _ _ _ _ _ Hem).
    - exact (emitted_style_href _ _ _ _ _ Hem).
    - exact (emitted_font_href _ _ _ _ _ Hem). }
  rewrite Hhref.
  destruct (lastIndexOf_split (Asset.originalHref a))
    as [(Hmem & _ & Hname)|(u & v & Hp & Hmem & _ & Hname)]; rewrite Hname.
  - exists "", (Asset.originalHref a). repeat split; auto.
  - exists (u +:+ "/"), v. repeat split; [by rewrite str_app_assoc|done|by eauto].
Qed.

Lemma viewChapters_book i v : Forall (λ c, Chapter.bookIndex c = i) (viewChapters i v).
Proof.
  apply Forall_forall. intros c Hc.
  apply list_elem_of_omap in Hc as (x & _ & Hem). by eapply emitted_chapter_book.
Qed.

Lemma firstChapterOf_nil k : firstChapterOf [] k = None.
Proof. done. Qed.

Lemma firstChapterOf_cons c l k :
  firstChapterOf (c :: l) k
  = if decide (Chapter.bookIndex c = k) then Some c else firstChapterOf l k.
Proof.
  unfold firstChapterOf. simpl. case_decide; [done|].
  destruct (list_find _ l) as [[n x]|]; done.
Qed.

Lemma firstChapterOf_other l1 l2 k :
  Forall (λ c, Chapter.bookIndex c ≠ k) l1 →
  firstChapterOf (l1 ++ l2) k = firstChapterOf l2 k.
Proof.
  induction 1 as [|c l1 Hc _ IH]; [done|]. simpl.
  by rewrite firstChapterOf_cons, decide_False.
Qed.

Lemma firstChapterOf_none l k :
  Forall (λ c, Chapter.bookIndex c ≠ k) l → firstChapterOf l k = None.
Proof.
  intros H. rewrite <- (app_nil_r l). by rewrite firstChapterOf_other.
Qed.

Lemma firstChapterOf_fmap (f : Chapter.t → Chapter.t) l k :
  (∀ c, Chapter.bookIndex (f c) = Chapter.bookIndex c) →
  firstChapterOf (f <$> l) k = f <$> firstChapterOf l k.
Proof.
  intros Hf. induction l as [|c l IH]; [done|].
  rewrite fmap_cons, !firstChapterOf_cons, Hf. by case_decide.
Qed.

Lemma firstChapterOf_perBook views : ∀ i j v,
  views !! j = Some v →
  firstChapterOf (perBook viewChapters i views) (i + j) = head (viewChapters (i + j) v).
Proof.
  induction views as [|v0 views IH]; intros i j v Hv; [done|]. simpl.
  destruct j as [|j]; simpl in Hv.
  - injection Hv as ->. rewrite Nat.add_0_r.
    pose proof (viewChapters_book i v) as Hbook.
    destruct (viewChapters i v) as [|c l] eqn:Hl.
    + simpl. apply firstChapterOf_none, Forall_forall. intros c Hc.
      apply perBook_elem in Hc as (j & v' & _ & Hc).
      pose proof (proj1 (Forall_forall _ _) (viewChapters_book _ _) _ Hc) as Hi.
      simpl in Hi. lia.
    + simpl. rewrite firstChapterOf_cons, decide_True; [done|].
      by apply Forall_cons_1 in Hbook as [? _].
  - rewrite firstChapterOf_other.
    + rewrite Nat.add_succ_r. apply (IH (S i) j v Hv).
    + eapply Forall_impl; [apply viewChapters_book|]. simpl. lia.
Qed.

Lemma tocEntries_views (f : Chapter.t → Chapter.t) cs views : ∀ i,
  (∀ c, Chapter.id (f c) = Chapter.id c ∧ Chapter.href (f c) = Chapter.href c) →
  (∀ j v, views !! j = Some v →
     firstChapterOf cs (i + j) = f <$> head (viewChapters (i + j) v)) →
  tocEntries cs (perBook viewMetadata i views) = tocOfBooks i views.
Proof.
  intros i Hf. revert i. induction views as [|v views IH]; intros i Hfirst; [done|].
  simpl. f_equal.
  - specialize (Hfirst 0 v eq_refl). rewrite Nat.add_0_r in Hfirst.
    rewrite Hfirst, <- viewChapters_ids.
    pose proof (viewChapters_href [v] i) as Hhref. simpl in Hhref.
    rewrite app_nil_r in Hhref.
    destruct (viewChapters i v) as [|c l]; [done|]. simpl.
    apply Forall_cons_1 in Hhref as [Hhref _].
    destruct (Hf c) as [_ ->]. rewrite Hhref.
    change ("OEBPS/Text/" +:+ Chapter.id c +:+ ".xhtml")
      with ("OEBPS/" +:+ "Text/" +:+ Chapter.id c +:+ ".xhtml").
    by rewrite replace_first_prefix.
  - apply IH. intros j v' Hv'. specialize (Hfirst (S j) v' Hv').
    by rewrite Nat.add_succ_r in Hfirst.
Qed.

(** X15: the table of contents of a successful merge, written out.  Between
    its fixed head and tail the page has the entries of the books in the
    order of the inputs: the book at index [i] has an entry numbered
    [i + 1], with the title and the author of its metadata record, that
    links to the chapter of the first resolvable entry of its spine; a
    book of which no entry of the spine is resolvable has no entry. *)
Theorem toc_links_first_chapters (epubBuffers : list Buffer) (out : Output) :
  combineEpubs epubBuffers = Ok out →
  ∃ views,
    Forall2 (λ epubBuffer v, viewBook epubBuffer = Ok v) epubBuffers views
    ∧ tocHTML out = tocHead +:+ tocOfBooks 0 views +:+ tocTail.
Proof.
  intros H. apply combineEpubs_inv in H as (st & cs & Hst & Hcs & ->).
  rewrite updateChapters_spec in Hcs. injection Hcs as <-.
  destruct (extractBooks_views _ _ Hst) as (views & Hviews & Hc & _ & _ & _ & Hb & _).
  exists views. split; [done|]. simpl. rewrite buildToc_spec, Hb, Hc. do 2 f_equal.
  apply (tocEntries_views (rewrittenBy (allImages st) (allStyles st))); [done|].
  intros j v Hv. rewrite firstChapterOf_fmap by done.
  by rewrite (firstChapterOf_perBook views 0 j v Hv).
Qed.

Lemma addManifestItem_keeps after : ∀ m0 manifestMap key,
  for_of addManifestItem after m0 = Ok manifestMap →
  (∀ item', item' ∈ after → manifestKey item' ≠ Some key) →
  manifestMap !! key = m0 !! key.
Proof.
  induction after as [|x after IH]; intros m0 manifestMap key H Hkeys.
  - by injection H as <-.
  - simpl in H. unfold addManifestItem at 1 in H.
    pose proof (Hkeys x ltac:(by left)) as Hx. unfold manifestKey in Hx.
    destruct (Xml.attrs x) as [a|]; simpl in *; [|done].
    rewrite (IH _ _ key H) by (intros item' Hin; apply Hkeys; by right).
    apply lookup_insert_ne. congruence.
Qed.

(** X16: when two items of the manifest of a book have the same [id], the
    later one is the one the spine resolves to.  The manifest map of the
    book holds, under the identifier of an item, the attributes of that
    item as soon as no item after it has the same identifier. *)
Theorem manifestMap_last_wins (epubBuffer : Buffer) (v : BookView)
    (before after : list xml) (item : xml) (a : gmap string string) :
  viewBook epubBuffer = Ok v →
  view_manifest v = before ++ item :: after →
  Xml.attrs item = Some a →
  (∀ item', item' ∈ after → manifestKey item' ≠ manifestKey item) →
  view_manifestMap v !! to_string (a !! "id") = Some a.
Proof.
  intros Hv Hm Ha Hafter. apply viewBook_manifestMap in Hv.
  rewrite Hm, for_of_app in Hv.
  destruct (for_of addManifestItem before ∅) as [m1|] eqn:H1; simpl in Hv; [|done].
  unfold addManifestItem at 1 in Hv. rewrite Ha in Hv. simpl in Hv.
  rewrite (addManifestItem_keeps _ _ _ _ Hv).
  - apply lookup_insert_eq.
  - intros item' Hin. specialize (Hafter item' Hin).
    unfold manifestKey in Hafter at 2. by rewrite Ha in Hafter.
Qed.

Lemma books_length epubBuffers out :
  combineEpubs epubBuffers = Ok out → length (books out) = length epubBuffers.
Proof.
  intros H. apply combineEpubs_inv in H as (st & cs & Hst & _ & ->).
  destruct (extractBooks_views _ _ Hst) as (views & Hviews & _ & _ & _ & _ & Hb & _).
  simpl. rewrite Hb, (Forall2_length _ _ _ Hviews). clear. generalize 0.
  induction views as [|v views IH]; intros i; [done|]. simpl. by rewrite IH.
Qed.

(** X17: the route answers with an archive only for a request of two to
    [maxFiles] files whose buffers, in the order of the upload, the engine
    merges; the archive is that of the merge and has one metadata record
    for each uploaded file.  It is sent as [application/epub+zip], as an
    attachment under the configured file name. *)
Theorem route_sends_the_merge (files : option (list UploadedFile))
    (contentType contentDisposition : string) (out : Output) :
  combineHandler files = EpubFile contentType contentDisposition out →
  ∃ uploaded,
    files = Some uploaded
    ∧ 2 ≤ length uploaded ≤ Config.maxFiles
    ∧ combineEpubs (buffer <$> uploaded) = Ok out
    ∧ length (books out) = length uploaded
    ∧ contentType = "application/epub+zip"
    ∧ contentDisposition = "attachment; filename=" +:+ q "combined.epub".
Proof.
  unfold combineHandler. intros H.
  destruct files as [uploaded|]; [|done].
  repeat case_decide; try done.
  destruct (combineEpubs (buffer <$> uploaded)) as [out'|e] eqn:Hout; [|done].
  injection H as <- <- <-. exists uploaded. repeat split; try done; try lia.
  by rewrite (books_length _ _ Hout), length_fmap.
Qed.


Lemma filter_none {A} (P : A → Prop) `{!∀ x, Decision (P x)} (l : list A) :
  Forall (λ x, ¬ P x) l → filter P l = [].
Proof. induction 1 as [|x l Hx _ IH]; [done|]. by rewrite filter_cons_False. Qed.

Lemma perBook_chapters_index views c :
  c ∈ perBook viewChapters 0 views → Chapter.bookIndex c < length views.
Proof.
  intros (j & v & Hv & Hc)%perBook_elem_0.
  pose proof (proj1 (Forall_forall _ _) (viewChapters_book _ _) _ Hc) as Hj. simpl in Hj.
  apply lookup_lt_Some in Hv. lia.
Qed.

Lemma perBook_images_index views n :
  Forall (λ a, n ≤ Asset.bookIndex a) (perBook viewImages n views).
Proof.
  apply Forall_forall. intros a (j & v & _ & Ha)%perBook_elem.
  apply list_elem_of_omap in Ha as (x & _ & Hem).
  apply emitted_image_source in Hem as (_ & _ & _ & _ & _ & _ & ->). lia.
Qed.

Lemma perBook_styles_index views n :
  Forall (λ a, n ≤ Asset.bookIndex a) (perBook viewStyles n views).
Proof.
  apply Forall_forall. intros a (j & v & _ & Ha)%perBook_elem.
  apply list_elem_of_omap in Ha as (x & _ & Hem).
  apply emitted_style_source in Hem as (_ & _ & _ & _ & _ & ->). lia.
Qed.

(** X19: the books are merged independently of the books that follow them.
    When the merge of some inputs succeeds, and so does the merge of these
    inputs followed by others, the chapters, with their rewritten contents,
    the images, the styles, the fonts and the metadata records of the
    first merge are the beginning of those of the second; and unless the
    first merge had no input, the combined metadata are the same. *)
Theorem earlier_books_unchanged (epubBuffers1 epubBuffers2 : list Buffer)
    (out1 out : Output) :
  combineEpubs epubBuffers1 = Ok out1 →
  combineEpubs (epubBuffers1 ++ epubBuffers2) = Ok out →
  chapters out1 `prefix_of` chapters out
  ∧ images out1 `prefix_of` images out
  ∧ styles out1 `prefix_of` styles out
  ∧ fonts out1 `prefix_of` fonts out
  ∧ books out1 `prefix_of` books out
  ∧ (epubBuffers1 ≠ [] → metadata out = metadata out1).
Proof.
  intros H1 H.
  apply combineEpubs_inv in H1 as (st1 & cs1 & Hst1 & Hcs1 & ->).
  apply combineEpubs_inv in H as (st & cs & Hst & Hcs & ->).
  rewrite updateChapters_spec in Hcs, Hcs1. injection Hcs as <-. injection Hcs1 as <-.
  destruct (extractBooks_views _ _ Hst1) as (views1 & Hviews1 & Hc1 & _).
  unfold extractBooks in Hst, Hst1. rewrite for_index_app, Hst1 in Hst. simpl in Hst.
  destruct (for_index_processBook_views _ _ _ _ Hst)
    as (views2 & _ & Hc & Hi & Hs & Hf & Hb & Hm).
  simpl. repeat split.
  - rewrite Hc, fmap_app. eexists. f_equal.
    apply Forall_fmap_ext, Forall_forall. intros c Hin.
    rewrite Hc1 in Hin. apply perBook_chapters_index in Hin.
    rewrite <- (Forall2_length _ _ _ Hviews1) in Hin.
    unfold rewrittenBy, sameBook. rewrite Hi, Hs, !filter_app.
    rewrite (filter_none _ (perBook viewImages _ _)), (filter_none _ (perBook viewStyles _ _)).
    + by rewrite !app_nil_r.
    + eapply Forall_impl; [apply perBook_styles_index|]. simpl. lia.
    + eapply Forall_impl; [apply perBook_images_index|]. simpl. lia.
  - rewrite Hi. by eexists.
  - rewrite Hs. by eexists.
  - rewrite Hf. by eexists.
  - rewrite Hb. by eexists.
  - intros Hne. rewrite Hm. destruct views2; [done|].
    rewrite decide_False; [done|]. by destruct epubBuffers1.
Qed.

End Combiner.

(** * The properties on the sample books *)

Local Abbreviation merge := (combineEpubs Sample.load Sample.parse "uuid" Sample.build).
Local Abbreviation view := (viewBook Sample.load Sample.parse).

(** The output of a merge that succeeds, and what is read of a book that
    can be read. *)
Local Abbreviation output epubBuffers :=
  (match merge epubBuffers with
   | Ok out => out
   | Err _ => assemble Sample.build (initialState "uuid")
   end).
Local Abbreviation viewed epubBuffer :=
  (match view epubBuffer with
   | Ok v => v
   | Err _ =>
       {| view_zip := ∅; view_baseDir := ""; view_metadata := XText "";
          view_manifest := []; view_spine := []; view_manifestMap := ∅ |}
   end).

Lemma rewriter_ignores_other_books_witness :
  let chapter :=
    {| Chapter.id := "chapter_0_ch1"; Chapter.href := "OEBPS/Text/chapter_0_ch1.xhtml";
       Chapter.content := Sample.picture; Chapter.originalHref := Some "ch1.xhtml";
       Chapter.bookIndex := 0 |} in
  let image (i : nat) :=
    {| Asset.id := "img_" +:+ pretty i +:+ "_pic";
       Asset.href := "OEBPS/Images/img_" +:+ pretty i +:+ "_pic_pic.jpg";
       Asset.content := "picture"; Asset.mediaType := Some "image/jpeg";
       Asset.originalHref := "pic.jpg"; Asset.bookIndex := i |} in
  filter (λ a, Asset.bookIndex a = Chapter.bookIndex chapter) [image 1; image 0; image 2]
  = filter (λ a, Asset.bookIndex a = Chapter.bookIndex chapter) [image 0]
  ∧ filter (λ a, Asset.bookIndex a = Chapter.bookIndex chapter) [image 3]
    = filter (λ a, Asset.bookIndex a = Chapter.bookIndex chapter) []
  ∧ updateChapter [image 1; image 0; image 2] [image 3] chapter
    = updateChapter [image 0] [] chapter.
Proof.
  intros chapter image.
  split; [reflexivity|]. split; [reflexivity|].
  apply rewriter_ignores_other_books; reflexivity.
Defined.

Lemma spine_groups_books_witness :
  ∃ out,
    merge [Sample.bookA; Sample.bookB] = Ok out
    ∧ ∃ views,
        Forall2 (λ epubBuffer v, view epubBuffer = Ok v) [Sample.bookA; Sample.bookB] views
        ∧ spine (opfContent out) = "toc-page" :: perBook spineChapterIds 0 views
        ∧ Chapter.id <$> chapters out = perBook spineChapterIds 0 views
        ∧ Chapter.bookIndex <$> chapters out
          = perBook (λ i v, replicate (length (spineChapterIds i v)) i) 0 views
        ∧ length (spine (opfContent out)) = 1 + length (chapters out).
Proof.
  exists (output [Sample.bookA; Sample.bookB]). split; [vm_compute; reflexivity|].
  apply (spine_groups_books Sample.load Sample.parse "uuid" Sample.build).
  vm_compute; reflexivity.
Defined.

(** C1 fails as it is stated: the spine of book C lists its chapter twice,
    and the merge has two chapters with one identifier and one path. *)
Lemma repeated_idref_repeats_chapter :
  ∃ out e1 e2,
    merge [Sample.bookC] = Ok out
    ∧ entries out !! 0 = Some e1 ∧ entries out !! 1 = Some e2
    ∧ entry_id e1 = entry_id e2 ∧ entry_href e1 = entry_href e2
    ∧ ¬ NoDup (entry_id <$> entries out)
    ∧ ¬ NoDup (entry_href <$> entries out).
Proof.
  exists (output [Sample.bookC]). do 2 eexists. split; [vm_compute; reflexivity|].
  split; [vm_compute; reflexivity|]. split; [vm_compute; reflexivity|].
  split; [reflexivity|]. split; [reflexivity|].
  split; intros Hnd; vm_compute in Hnd; apply NoDup_cons in Hnd as [Hin _];
    apply Hin; left.
Qed.

Lemma records_distinct_witness :
  ∃ out,
    merge [Sample.bookA; Sample.bookB] = Ok out
    ∧ (∀ e1 e2, e1 ∈ entries out → e2 ∈ entries out →
         entry_book e1 ≠ entry_book e2 ∨ entry_kind e1 ≠ entry_kind e2 →
         entry_id e1 ≠ entry_id e2 ∧ entry_href e1 ≠ entry_href e2)
    ∧ NoDup (entry_id <$> entries out)
    ∧ NoDup (Chapter.href <$> chapters out).
Proof.
  exists (output [Sample.bookA; Sample.bookB]). split; [vm_compute; reflexivity|].
  destruct (records_distinct Sample.load Sample.parse "uuid" Sample.build
              [Sample.bookA; Sample.bookB] (output [Sample.bookA; Sample.bookB])
              ltac:(vm_compute; reflexivity)) as [H1 H2].
  split; [exact H1|]. apply H2. intros b v Hb Hv.
  assert (v = viewed b) as -> by (by rewrite Hv). clear Hv.
  apply elem_of_cons in Hb as [->|Hb]; [|apply elem_of_cons in Hb as [->|Hb]];
    [| |by apply elem_of_nil in Hb];
    split; apply (bool_decide_unpack _); vm_compute; exact I.
Defined.

(** C4 fails as it is stated: the chapter of book D names the font
    [fonts/f.ttf] of its own book, and after the merge it still does, while
    the path of its style sheet has been replaced. *)
Lemma fonts_are_not_rewritten :
  ∃ out chapter font,
    merge [Sample.bookD] = Ok out
    ∧ chapters out = [chapter] ∧ fonts out = [font]
    ∧ Asset.bookIndex font = Chapter.bookIndex chapter
    ∧ Asset.originalHref font = "fonts/f.ttf"
    ∧ Asset.href font = "OEBPS/Fonts/font_0_f_f.ttf"
    ∧ Chapter.content chapter
      = "@font-face { src: url(fonts/f.ttf) } @import ../Styles/style_0_css_main.css".
Proof.
  exists (output [Sample.bookD]). do 2 eexists. split; [vm_compute; reflexivity|].
  split; [vm_compute; reflexivity|]. split; [vm_compute; reflexivity|]. by repeat split.
Qed.

Lemma rewriter_replaces_images_and_styles_witness :
  ∃ out,
    merge [Sample.bookD] = Ok out
    ∧ ∃ st,
        extractBooks Sample.load Sample.parse "uuid" [Sample.bookD] = Ok st
        ∧ images out = allImages st ∧ styles out = allStyles st ∧ fonts out = allFonts st
        ∧ chapters out = rewrittenBy (images out) (styles out) <$> allChapters st
        ∧ ∀ a, a ∈ images out ++ styles out →
            ∃ p, Asset.href a = "OEBPS/" +:+ p
              ∧ relativePath a = "../" +:+ p
              ∧ ∀ content,
                  Asset.originalHref a ≠ "" → JsString.mem "$" (relativePath a) = false →
                  JsRegExp.Replaced (Asset.originalHref a) ("../" +:+ p) content
                    (literalStep content a).
Proof.
  exists (output [Sample.bookD]). split; [vm_compute; reflexivity|].
  apply (rewriter_replaces_images_and_styles Sample.load Sample.parse "uuid" Sample.build).
  vm_compute; reflexivity.
Defined.



(** C6 fails as it is stated: an archive without [META-INF/container.xml]
    makes the merge fail with a [TypeError], not with an error named
    [InvalidContainerError]; and an archive without its package document
    makes it fail with the very same error. *)
Lemma missing_container_is_type_error :
  ∃ e,
    merge [Sample.bookA; Sample.bookF] = Err e
    ∧ Sample.bookF !! "META-INF/container.xml" = None
    ∧ error_name e ≠ "InvalidContainerError"
    ∧ merge [Sample.bookA; Sample.bookG] = Err e.
Proof.
  exists TypeError. split; [vm_compute; reflexivity|]. split; [vm_compute; reflexivity|].
  split; [done|vm_compute; reflexivity].
Qed.

Lemma container_failures_witness :
  ∃ st zip,
    for_index (processBook Sample.load Sample.parse) 0 [Sample.bookA]
      (initialState "uuid") = Ok st
    ∧ Sample.load Sample.bookF = Ok zip
    ∧ zip !! "META-INF/container.xml" = None
    ∧ merge ([Sample.bookA] ++ Sample.bookF :: []) = Err TypeError.
Proof.
  exists (match for_index (processBook Sample.load Sample.parse) 0 [Sample.bookA]
                  (initialState "uuid") with
          | Ok st => st
          | Err _ => initialState "uuid"
          end), Sample.bookF.
  split; [vm_compute; reflexivity|]. split; [reflexivity|].
  split; [vm_compute; reflexivity|].
  refine (proj1 (container_failures Sample.load Sample.parse "uuid" Sample.build
                   [Sample.bookA] [] Sample.bookF _ Sample.bookF _ eq_refl) _);
    vm_compute; reflexivity.
Defined.

Lemma dangling_itemref_skipped_witness :
  ∃ v v',
    view Sample.bookE = Ok v
    ∧ view Sample.bookE' = Ok v'
    ∧ view_spine v = [] ++ Sample.itemref "ghost" :: [Sample.itemref "ch1"; Sample.itemref "ch2"]
    ∧ view_spine v' = [] ++ [Sample.itemref "ch1"; Sample.itemref "ch2"]
    ∧ view_baseDir v' = view_baseDir v
    ∧ view_metadata v' = view_metadata v
    ∧ view_manifest v' = view_manifest v
    ∧ sameFiles v v'
    ∧ dangling v (Sample.itemref "ghost")
    ∧ Sample.bookE !! "OEBPS/ch2.xhtml" = None
    ∧ merge ([Sample.bookA] ++ Sample.bookE :: [Sample.bookB])
      = merge ([Sample.bookA] ++ Sample.bookE' :: [Sample.bookB])
    ∧ ∃ out,
        merge ([Sample.bookA] ++ Sample.bookE :: [Sample.bookB]) = Ok out
        ∧ spine (opfContent out)
          = ["toc-page"; "chapter_0_ch1"; "chapter_1_ch1"; "chapter_2_ch1"].
Proof.
  assert (sameFiles (viewed Sample.bookE) (viewed Sample.bookE')) as Hfiles.
  { unfold sameFiles. vm_compute. repeat constructor. }
  assert (dangling (viewed Sample.bookE) (Sample.itemref "ghost")) as Hdangling.
  { eexists. split; [reflexivity|]. left. vm_compute. reflexivity. }
  exists (viewed Sample.bookE), (viewed Sample.bookE').
  split; [vm_compute; reflexivity|]. split; [vm_compute; reflexivity|].
  split; [vm_compute; reflexivity|]. split; [vm_compute; reflexivity|].
  split; [vm_compute; reflexivity|]. split; [vm_compute; reflexivity|].
  split; [vm_compute; reflexivity|].
  split; [exact Hfiles|]. split; [exact Hdangling|]. split; [vm_compute; reflexivity|].
  split.
  - refine (proj1 (proj2 (proj2
              (dangling_itemref_skipped Sample.load Sample.parse "uuid" Sample.build
                 [Sample.bookA] [Sample.bookB] Sample.bookE Sample.bookE'
                 (viewed Sample.bookE) (viewed Sample.bookE')
                 [] [Sample.itemref "ch1"; Sample.itemref "ch2"] (Sample.itemref "ghost")
                 _ _ _ _ _ _ _ Hfiles Hdangling))));
      vm_compute; reflexivity.
  - exists (output ([Sample.bookA] ++ Sample.bookE :: [Sample.bookB])).
    split; vm_compute; reflexivity.
Defined.



(** ** Two limits of the naming and of the rewriting *)

(** Two images of one book with different identifiers can get one path:
    the identifier and the file name are joined by an underscore, which
    both may contain. *)
Lemma asset_paths_can_coincide :
  ∃ out a1 a2,
    merge [Sample.bookH] = Ok out
    ∧ images out = [a1; a2]
    ∧ Asset.id a1 ≠ Asset.id a2
    ∧ Asset.href a1 = Asset.href a2.
Proof.
  exists (output [Sample.bookH]). do 2 eexists. split; [vm_compute; reflexivity|].
  split; [vm_compute; reflexivity|]. by split.
Qed.

(** The replacements are made one asset after the other on the text: the
    image [pic.jpg], which comes first, takes the end of the reference to
    [images/pic.jpg], and the second image finds its path no more. *)
Lemma overlapping_paths_interfere :
  ∃ out chapter,
    merge [Sample.bookI] = Ok out
    ∧ chapters out = [chapter]
    ∧ Chapter.content chapter
      = "<img src=" +:+ q "images/../Images/img_0_p1_pic.jpg" +:+ "/>".
Proof.
  exists (output [Sample.bookI]). eexists. split; [vm_compute; reflexivity|].
  split; vm_compute; reflexivity.
Qed.

(** * The further properties on the sample books *)

Lemma navigation_follows_chapters_witness :
  ∃ out,
    merge [Sample.bookA; Sample.bookB] = Ok out
    ∧ length (navMap (ncxContent out)) = length (chapters out)
    ∧ (∀ k c, chapters out !! k = Some c →
         navMap (ncxContent out) !! k
         = Some {| nav_id := "navPoint-" +:+ pretty (k + 1);
                   playOrder := pretty (k + 1);
                   navLabel := "Chapter " +:+ pretty (k + 1);
                   nav_src := "Text/" +:+ Chapter.id c +:+ ".xhtml" |})
    ∧ NoDup (playOrder <$> navMap (ncxContent out)).
Proof.
  exists (output [Sample.bookA; Sample.bookB]). split; [vm_compute; reflexivity|].
  apply (navigation_follows_chapters Sample.load Sample.parse "uuid" Sample.build
           [Sample.bookA; Sample.bookB]).
  vm_compute; reflexivity.
Defined.

Lemma metadata_of_first_book_witness :
  ∃ out,
    merge [Sample.bookB; Sample.bookA] = Ok out
    ∧ ∃ views,
        Forall2 (λ epubBuffer v, view epubBuffer = Ok v) [Sample.bookB; Sample.bookA] views
        ∧ dc_title (opfContent out) =
            match views with
            | v :: _ => metadataOr "dc:title" (view_metadata v) (Some (XText "Combined EPUB"))
            | [] => Some (XText "Combined EPUB")
            end
        ∧ dc_creator (opfContent out) =
            match views with
            | v :: _ =>
                metadataOr "dc:creator" (view_metadata v) (Some (XText "Multiple Authors"))
            | [] => Some (XText "Multiple Authors")
            end
        ∧ dc_language (opfContent out) =
            match views with
            | v :: _ => metadataOr "dc:language" (view_metadata v) (Some (XText "en"))
            | [] => Some (XText "en")
            end
        ∧ dc_identifier (opfContent out) = "uuid"
        ∧ dtb_uid (ncxContent out) = dc_identifier (opfContent out)
        ∧ docTitle (ncxContent out) = dc_title (opfContent out).
Proof.
  exists (output [Sample.bookB; Sample.bookA]). split; [vm_compute; reflexivity|].
  apply (metadata_of_first_book Sample.load Sample.parse "uuid" Sample.build).
  vm_compute; reflexivity.
Defined.

Lemma spine_within_manifest_witness :
  ∃ out,
    merge [Sample.bookA; Sample.bookD] = Ok out
    ∧ (∀ idref, idref ∈ spine (opfContent out) →
         ∃ item, item ∈ manifest (opfContent out)
           ∧ item_id item = idref
           ∧ item_media_type item = Some "application/xhtml+xml")
    ∧ length (manifest (opfContent out))
      = 2 + length (chapters out) + length (images out) + length (styles out)
        + length (fonts out)
    ∧ (∀ a, a ∈ styles out →
         ∃ item, item ∈ manifest (opfContent out)
           ∧ item_id item = Asset.id a ∧ item_media_type item = Some "text/css").
Proof.
  exists (output [Sample.bookA; Sample.bookD]). split; [vm_compute; reflexivity|].
  apply (spine_within_manifest Sample.load Sample.parse "uuid" Sample.build
           [Sample.bookA; Sample.bookD]).
  vm_compute; reflexivity.
Defined.

Lemma rewriter_without_references_witness :
  let chapter :=
    {| Chapter.id := "chapter_0_ch1"; Chapter.href := "OEBPS/Text/chapter_0_ch1.xhtml";
       Chapter.content := "<p>one</p>"; Chapter.originalHref := Some "ch1.xhtml";
       Chapter.bookIndex := 0 |} in
  let image :=
    {| Asset.id := "img_0_pic"; Asset.href := "OEBPS/Images/img_0_pic_pic.jpg";
       Asset.content := "picture"; Asset.mediaType := Some "image/jpeg";
       Asset.originalHref := "pic.jpg"; Asset.bookIndex := 0 |} in
  (∀ a, a ∈ sameBook chapter [image] [] →
     Asset.originalHref a ≠ ""
     ∧ ¬ JsString.occurs (Asset.originalHref a) (Chapter.content chapter))
  ∧ updateChapter [image] [] chapter = Ok chapter.
Proof.
  intros chapter image.
  assert (∀ a, a ∈ sameBook chapter [image] [] →
            Asset.originalHref a ≠ ""
            ∧ ¬ JsString.occurs (Asset.originalHref a) (Chapter.content chapter)) as Hno.
  { intros a Ha. change (sameBook chapter [image] []) with [image] in Ha.
    apply list_elem_of_singleton in Ha as ->. split; [discriminate|].
    apply not_includes_occurs. reflexivity. }
  split; [exact Hno|]. apply rewriter_without_references. exact Hno.
Defined.



Lemma records_bounded_by_inputs_witness :
  ∃ out,
    merge [Sample.bookA; Sample.bookE] = Ok out
    ∧ ∃ views,
        Forall2 (λ epubBuffer v, view epubBuffer = Ok v) [Sample.bookA; Sample.bookE] views
        ∧ length (books out) = length [Sample.bookA; Sample.bookE]
        ∧ length (chapters out) ≤ sum_list ((λ v, length (view_spine v)) <$> views)
        ∧ length (images out) + length (styles out) + length (fonts out)
          ≤ sum_list ((λ v, length (view_manifest v)) <$> views).
Proof.
  exists (output [Sample.bookA; Sample.bookE]). split; [vm_compute; reflexivity|].
  apply (records_bounded_by_inputs Sample.load Sample.parse "uuid" Sample.build).
  vm_compute; reflexivity.
Defined.

Lemma first_failure_aborts_witness :
  ∃ st,
    extractBooks Sample.load Sample.parse "uuid" [Sample.bookA] = Ok st
    ∧ (Sample.load Sample.bookF = Err TypeError
       ∨ processBook Sample.load Sample.parse st (length [Sample.bookA]) Sample.bookF
         = Err TypeError)
    ∧ merge ([Sample.bookA] ++ Sample.bookF :: [Sample.bookB]) = Err TypeError.
Proof.
  exists (match extractBooks Sample.load Sample.parse "uuid" [Sample.bookA] with
          | Ok st => st
          | Err _ => initialState "uuid"
          end).
  assert (extractBooks Sample.load Sample.parse "uuid" [Sample.bookA]
          = Ok (match extractBooks Sample.load Sample.parse "uuid" [Sample.bookA] with
                | Ok st => st
                | Err _ => initialState "uuid"
                end)) as Hst by (vm_compute; reflexivity).
  assert (Sample.load Sample.bookF = Err TypeError
          ∨ processBook Sample.load Sample.parse
              (match extractBooks Sample.load Sample.parse "uuid" [Sample.bookA] with
               | Ok st => st
               | Err _ => initialState "uuid"
               end) (length [Sample.bookA]) Sample.bookF = Err TypeError) as He.
  { right. vm_compute; reflexivity. }
  split; [exact Hst|]. split; [exact He|].
  exact (first_failure_aborts Sample.load Sample.parse "uuid" Sample.build
           [Sample.bookA] [Sample.bookB] Sample.bookF _ TypeError Hst He).
Defined.



Lemma manifest_lists_archive_witness :
  ∃ out,
    merge [Sample.bookA; Sample.bookB] = Ok out
    ∧ (is_Some (epub out !! "OEBPS/Images/img_1_pic_pic.jpg") ↔
       "OEBPS/Images/img_1_pic_pic.jpg" ∈ unlisted
       ∨ ∃ item, item ∈ manifest (opfContent out)
           ∧ "OEBPS/Images/img_1_pic_pic.jpg" = "OEBPS/" +:+ item_href item).
Proof.
  exists (output [Sample.bookA; Sample.bookB]). split; [vm_compute; reflexivity|].
  apply (manifest_lists_archive Sample.load Sample.parse "uuid" Sample.build
           [Sample.bookA; Sample.bookB]).
  vm_compute; reflexivity.
Defined.

Lemma asset_path_keeps_file_name_witness :
  ∃ out,
    merge [Sample.bookA; Sample.bookD] = Ok out
    ∧ ∀ k a,
        (k = KImage ∧ a ∈ images out) ∨ (k = KStyle ∧ a ∈ styles out)
        ∨ (k = KFont ∧ a ∈ fonts out) →
        ∃ dir name,
          Asset.originalHref a = dir +:+ name
          ∧ JsString.mem "/" name = false
          ∧ (dir = "" ∨ ∃ dir', dir = dir' +:+ "/")
          ∧ Asset.href a
            = "OEBPS/" +:+ kindDir k +:+ "/" +:+ Asset.id a +:+ "_" +:+ name.
Proof.
  exists (output [Sample.bookA; Sample.bookD]). split; [vm_compute; reflexivity|].
  apply (asset_path_keeps_file_name Sample.load Sample.parse "uuid" Sample.build
           [Sample.bookA; Sample.bookD]).
  vm_compute; reflexivity.
Defined.

Lemma toc_links_first_chapters_witness :
  ∃ out,
    merge [Sample.bookA; Sample.bookE] = Ok out
    ∧ ∃ views,
        Forall2 (λ epubBuffer v, view epubBuffer = Ok v) [Sample.bookA; Sample.bookE] views
        ∧ tocHTML out = tocHead +:+ tocOfBooks 0 views +:+ tocTail.
Proof.
  exists (output [Sample.bookA; Sample.bookE]). split; [vm_compute; reflexivity|].
  apply (toc_links_first_chapters Sample.load Sample.parse "uuid" Sample.build).
  vm_compute; reflexivity.
Defined.

Lemma manifestMap_last_wins_witness :
  ∃ v a,
    view Sample.bookH = Ok v
    ∧ view_manifest v
      = [Sample.item "ch1" "ch1.xhtml" Sample.xhtml]
        ++ Sample.item "a" "b_c.jpg" "image/jpeg"
        :: [Sample.item "a_b" "c.jpg" "image/jpeg"]
    ∧ Xml.attrs (Sample.item "a" "b_c.jpg" "image/jpeg") = Some a
    ∧ (∀ item', item' ∈ [Sample.item "a_b" "c.jpg" "image/jpeg"] →
         manifestKey item' ≠ manifestKey (Sample.item "a" "b_c.jpg" "image/jpeg"))
    ∧ view_manifestMap v !! JsString.to_string (a !! "id") = Some a.
Proof.
  exists (viewed Sample.bookH),
    ({[ "id" := "a"; "href" := "b_c.jpg"; "media-type" := "image/jpeg" ]}).
  assert (∀ item', item' ∈ [Sample.item "a_b" "c.jpg" "image/jpeg"] →
            manifestKey item' ≠ manifestKey (Sample.item "a" "b_c.jpg" "image/jpeg")) as Hlater.
  { intros item' Hin. apply list_elem_of_singleton in Hin as ->. vm_compute. discriminate. }
  split; [vm_compute; reflexivity|]. split; [vm_compute; reflexivity|].
  split; [reflexivity|]. split; [exact Hlater|].
  apply (manifestMap_last_wins Sample.load Sample.parse Sample.bookH (viewed Sample.bookH)
           [Sample.item "ch1" "ch1.xhtml" Sample.xhtml]
           [Sample.item "a_b" "c.jpg" "image/jpeg"]
           (Sample.item "a" "b_c.jpg" "image/jpeg")).
  - vm_compute; reflexivity.
  - vm_compute; reflexivity.
  - reflexivity.
  - exact Hlater.
Defined.

Local Abbreviation uploaded name epubBuffer :=
  {| originalname := name; mimetype := "application/epub+zip"; buffer := epubBuffer |}.
Local Abbreviation route :=
  (combineHandler Sample.load Sample.parse "uuid" Sample.build).

Lemma route_sends_the_merge_witness :
  let files := [uploaded "a.epub" Sample.bookA; uploaded "b.epub" Sample.bookB] in
  ∃ out,
    route (Some files)
    = EpubFile "application/epub+zip" ("attachment; filename=" +:+ q "combined.epub") out
    ∧ ∃ uploaded,
        Some files = Some uploaded
        ∧ 2 ≤ length uploaded ≤ Config.maxFiles
        ∧ merge (buffer <$> uploaded) = Ok out
        ∧ length (books out) = length uploaded
        ∧ "application/epub+zip" = "application/epub+zip"
        ∧ "attachment; filename=" +:+ q "combined.epub"
          = "attachment; filename=" +:+ q "combined.epub".
Proof.
  intros files. exists (output [Sample.bookA; Sample.bookB]).
  split; [vm_compute; reflexivity|].
  apply (route_sends_the_merge Sample.load Sample.parse "uuid" Sample.build).
  vm_compute; reflexivity.
Defined.


Lemma earlier_books_unchanged_witness :
  ∃ out1 out,
    merge [Sample.bookA] = Ok out1
    ∧ merge ([Sample.bookA] ++ [Sample.bookD]) = Ok out
    ∧ chapters out1 `prefix_of` chapters out
    ∧ images out1 `prefix_of` images out
    ∧ styles out1 `prefix_of` styles out
    ∧ fonts out1 `prefix_of` fonts out
    ∧ books out1 `prefix_of` books out
    ∧ ([Sample.bookA] ≠ [] → metadata out = metadata out1).
Proof.
  exists (output [Sample.bookA]), (output [Sample.bookA; Sample.bookD]).
  split; [vm_compute; reflexivity|]. split; [vm_compute; reflexivity|].
  apply (earlier_books_unchanged Sample.load Sample.parse "uuid" Sample.build
           [Sample.bookA] [Sample.bookD]); vm_compute; reflexivity.
Defined.
